(** * misconfig-ConfigMutationTester: a shallow embedding of [src/main.py]

    The development models the mutation engine ([mutate_value],
    [mutate_config]) and the session orchestrator ([load_config],
    [save_config], [lint_config], [run_test_command], [main]) as state-passing
    functions over an explicit world: the Python object store holding the
    [dict] objects of the loaded document, the global random source of the
    [random] module, the file system, and the chronological trace of logging
    records and external invocations. *)

From Stdlib Require Import ZArith Ascii String List Bool Lia.
From Stdlib Require Import Floats.SpecFloat.
From stdpp Require Import base option list strings pretty gmap.

Local Open Scope string_scope.
Local Open Scope list_scope.
Local Open Scope Z_scope.

(** ** Python floats: IEEE 754 binary64 *)

Module PyFloat.

Definition prec : Z := 53.
Definition emax : Z := 1024.

Definition float : Type := spec_float.

(** [0.0], [0.5], [1.0] and [-0.5] in canonical form. *)
Definition zero : float := S754_zero false.
Definition half : float := S754_finite false 4503599627370496 (-53).
Definition one : float := S754_finite false 4503599627370496 (-52).
Definition neg_half : float := S754_finite true 4503599627370496 (-53).

(** [x < y], [x <= y] and [x + y] on Python floats. *)
Definition lt (x y : float) : bool := SFltb x y.
Definition le (x y : float) : bool := SFleb x y.
Definition add (x y : float) : float := SFadd prec emax x y.

End PyFloat.

Abbreviation float := PyFloat.float.

(** ** Exceptions *)

Inductive exn_class : Type :=
| FileNotFoundError
| IsADirectoryError
| OSError
| ValueError
| JSONDecodeError
| YAMLError
| AttributeError
| TypeError
| IndexError
| KeyError
| RecursionError
| RuntimeError
| OtherException (name : string).

Record exn : Type := Exn { exn_cls : exn_class; exn_str : string }.

(** [isinstance(e, FileNotFoundError)]. *)
Definition is_FileNotFoundError (e : exn) : bool :=
  match exn_cls e with FileNotFoundError => true | _ => false end.

(** [isinstance(e, ValueError)]: [json.JSONDecodeError] derives from
    [ValueError]. *)
Definition is_ValueError (e : exn) : bool :=
  match exn_cls e with ValueError | JSONDecodeError => true | _ => false end.

Definition is_YAMLError (e : exn) : bool :=
  match exn_cls e with YAMLError => true | _ => false end.

Definition is_JSONDecodeError (e : exn) : bool :=
  match exn_cls e with JSONDecodeError => true | _ => false end.

(** ** Values and the object store *)

(** Address of a [dict] object. *)
Abbreviation loc := nat.

(** What [yaml.safe_load] and [json.load] produce.  A [dict] is a mutable
    object and is held by reference; the other values are immutable, or (for
    lists) never updated by this program. *)
#[warnings="-register-all"]
Inductive val : Type :=
| VNone
| VBool (b : bool)
| VInt (n : Z)
| VFloat (f : float)
| VStr (s : string)
| VList (items : list val)
| VDict (l : loc).

(** A [dict] object: its items in insertion order. *)
Abbreviation dict_obj := (list (string * val)).

Abbreviation heap := (list dict_obj).

(** [d[k] = v]: an existing key keeps its position, a new key is appended. *)
Fixpoint dict_setitem (k : string) (v : val) (d : dict_obj) : dict_obj :=
  match d with
  | [] => [(k, v)]
  | (k', v') :: d' =>
      if String.eqb k k' then (k, v) :: d' else (k', v') :: dict_setitem k v d'
  end.

(** The object a reference designates (a reference always designates an
    object in CPython; an address outside the store reads as an empty
    [dict]). *)
Definition dict_at (h : heap) (l : loc) : dict_obj := default [] (h !! l).

(** ** The world outside the interpreter *)

Inductive fnode : Type :=
| File (content : string)
| Dir.

Abbreviation filesystem := (gmap string fnode).

(** An external command: an argument vector ([subprocess.run([...])]) or a
    shell command line ([subprocess.run(cmd, shell=True)]). *)
Inductive command : Type :=
| Argv (argv : list string)
| Shell (cmd : string).

(** How a child process ended: [returncode] is the exit status, or [-N] when
    the child was terminated by signal [N]. *)
Inductive proc_status : Type :=
| Exited (code : N)
| Signaled (sig : positive).

Definition returncode_of (st : proc_status) : Z :=
  match st with
  | Exited c => Z.of_N c
  | Signaled s => Z.neg s
  end.

(** [subprocess.CompletedProcess]. *)
Record completed : Type := Completed {
  status : proc_status;
  stdout : string;
  stderr : string
}.

Definition returncode (p : completed) : Z := returncode_of (status p).

Inductive level : Type := INFO | WARNING | ERROR.

(** Observable effects, in chronological order. *)
Inductive event : Type :=
| Log (lvl : level) (msg : string)
| OpenRead (path : string)
| OpenWrite (path : string)
| Run (cmd : command).

Inductive res (A : Type) : Type :=
| Ok (a : A)
| Raise (e : exn).
Arguments Ok {A} a.
Arguments Raise {A} e.

(** The external collaborators: the document-format libraries, the operating
    system's refusal to open a file, the child processes, and the interpreter's
    remaining recursion depth. *)
Record Env : Type := {
  yaml_safe_load : string -> res (heap * val);
  json_load : string -> res (heap * val);
  (** [yaml.dump] / [json.dump]: the text written to the file, and the error
      raised after writing it, if any. *)
  yaml_dump : heap -> val -> string * option exn;
  json_dump : heap -> val -> string * option exn;
  open_read_error : filesystem -> string -> option exn;
  open_write_error : filesystem -> string -> option exn;
  (** [subprocess.run]: the child may change the file system. *)
  subprocess_run : command -> filesystem -> res completed * filesystem;
  (** [str.format] on a template with attribute, index, conversion or
      format-specification syntax. *)
  str_format_ext : string -> string -> res string;
  recursion_limit : nat
}.

(** ** The random source

    The [random] module's generator, as an explicit dependency.  The laws are
    the ranges the module documents: [random()] lies in [[0.0, 1.0)],
    [randint(a, b)] and [uniform(a, b)] lie in [[a, b]] when [a <= b], and
    [choice(seq)] is an element of a non-empty [seq]. *)
Class RandomSource (R : Type) : Type := {
  rs_random : R -> float * R;
  rs_randint : Z -> Z -> R -> Z * R;
  rs_uniform : float -> float -> R -> float * R;
  rs_choice : string -> R -> ascii * R;
  rs_random_range : forall r,
    PyFloat.le PyFloat.zero (rs_random r).1 = true /\
    PyFloat.lt (rs_random r).1 PyFloat.one = true;
  rs_randint_range : forall a b r,
    a <= b -> a <= (rs_randint a b r).1 <= b;
  rs_uniform_range : forall a b r,
    PyFloat.le a b = true ->
    PyFloat.le a (rs_uniform a b r).1 = true /\
    PyFloat.le (rs_uniform a b r).1 b = true;
  rs_choice_elem : forall cs r,
    cs <> "" -> In (rs_choice cs r).1 (list_ascii_of_string cs)
}.

(** ** The world and the interpreter monad *)

Record world (R : Type) : Type := World {
  w_heap : heap;
  w_rng : R;
  w_fs : filesystem;
  w_trace : list event
}.
Arguments World {R} _ _ _ _.
Arguments w_heap {R} _.
Arguments w_rng {R} _.
Arguments w_fs {R} _.
Arguments w_trace {R} _.

Definition set_heap {R} (h : heap) (w : world R) : world R :=
  World h (w_rng w) (w_fs w) (w_trace w).
Definition set_rng {R} (r : R) (w : world R) : world R :=
  World (w_heap w) r (w_fs w) (w_trace w).
Definition set_fs {R} (f : filesystem) (w : world R) : world R :=
  World (w_heap w) (w_rng w) f (w_trace w).
Definition emit {R} (e : event) (w : world R) : world R :=
  World (w_heap w) (w_rng w) (w_fs w) (w_trace w ++ [e]).

(** A computation returns a value or raises, and leaves a world behind in
    both cases: an exception does not undo the effects before it. *)
Definition M (R A : Type) : Type := world R -> res A * world R.

Definition ret {R A} (a : A) : M R A := fun w => (Ok a, w).

Definition raise {R A} (e : exn) : M R A := fun w => (Raise e, w).

Definition bind {R A B} (m : M R A) (k : A -> M R B) : M R B :=
  fun w =>
    match m w with
    | (Ok a, w') => k a w'
    | (Raise e, w') => (Raise e, w')
    end.

(** [try: m except Exception as e: h e]. *)
Definition try_except {R A} (m : M R A) (h : exn -> M R A) : M R A :=
  fun w =>
    match m w with
    | (Ok a, w') => (Ok a, w')
    | (Raise e, w') => h e w'
    end.

Declare Scope py_scope.
Delimit Scope py_scope with py.
Notation "x <- m ;; k" := (bind m (fun x => k))
  (at level 100, m at next level, right associativity) : py_scope.
Notation "m ;;; k" := (bind m (fun _ => k))
  (at level 100, right associativity) : py_scope.
Local Open Scope py_scope.

(** [for x in xs: body x]. *)
Fixpoint for_each {R A} (xs : list A) (body : A -> M R unit) : M R unit :=
  match xs with
  | [] => ret tt
  | x :: xs' => body x ;;; for_each xs' body
  end.

(** [logging.info] / [logging.warning] / [logging.error]. *)
Definition logging {R} (lvl : level) (msg : string) : M R unit :=
  fun w => (Ok tt, emit (Log lvl msg) w).

(** ** Strings *)

(** A [string] holds the text of a Python [str] in UTF-8, so a character
    (a code point) is a byte together with the continuation bytes, of the
    form [10xxxxxx], that follow it. *)
Definition is_continuation (c : ascii) : bool :=
  let n := nat_of_ascii c in (128 <=? n)%nat && (n <? 192)%nat.

(** The number of characters of [s]; [inside] tells that [s] starts in the
    middle of a character. *)
Fixpoint count_chars (inside : bool) (s : string) : nat :=
  match s with
  | EmptyString => O
  | String c s' =>
      if inside && is_continuation c then count_chars true s'
      else S (count_chars true s')
  end.

(** [len(s)]: the number of characters. *)
Definition len (s : string) : Z := Z.of_nat (count_chars false s).

(** The first [n] characters of [s], and what follows them. *)
Fixpoint split_chars (n : nat) (inside : bool) (s : string) : string * string :=
  match s with
  | EmptyString => (EmptyString, EmptyString)
  | String c s' =>
      if inside && is_continuation c then
        let '(a, b) := split_chars n true s' in (String c a, b)
      else
        match n with
        | O => (EmptyString, s)
        | S n' => let '(a, b) := split_chars n' true s' in (String c a, b)
        end
  end.

Definition take_chars (n : nat) (s : string) : string := (split_chars n false s).1.
Definition drop_chars (n : nat) (s : string) : string := (split_chars n false s).2.

(** A slice bound, as Python normalises it: a negative index counts from the
    end, and the result is clamped to [[0, len]]. *)
Definition slice_index (n i : Z) : nat :=
  Z.to_nat (if i <? 0 then Z.max 0 (n + i) else Z.min n i).

(** [s[:stop]] and [s[start:]], counted in characters. *)
Definition slice_to (s : string) (stop : Z) : string :=
  take_chars (slice_index (len s) stop) s.
Definition slice_from (s : string) (start : Z) : string :=
  drop_chars (slice_index (len s) start) s.

(** [s.endswith(suffix)]. *)
Definition endswith (s suffix : string) : bool :=
  let n := String.length s in
  let k := String.length suffix in
  (k <=? n)%nat && String.eqb (substring (n - k) k s) suffix.

(** [type(value).__name__] and [str(type(value))]. *)
Definition type_name (v : val) : string :=
  match v with
  | VNone => "NoneType"
  | VBool _ => "bool"
  | VInt _ => "int"
  | VFloat _ => "float"
  | VStr _ => "str"
  | VList _ => "list"
  | VDict _ => "dict"
  end.
Definition type_repr (v : val) : string :=
  "<class '" +:+ type_name v +:+ "'>".

(** ** [isinstance] on values *)

Definition isinstance_str (v : val) : bool :=
  match v with VStr _ => true | _ => false end.

(** [bool] is a subclass of [int]: [isinstance(True, int)] holds. *)
Definition isinstance_int (v : val) : bool :=
  match v with VInt _ | VBool _ => true | _ => false end.

Definition isinstance_float (v : val) : bool :=
  match v with VFloat _ => true | _ => false end.

Definition isinstance_bool (v : val) : bool :=
  match v with VBool _ => true | _ => false end.

Definition isinstance_dict (v : val) : bool :=
  match v with VDict _ => true | _ => false end.

Definition str_of (v : val) : string :=
  match v with VStr s => s | _ => "" end.

(** The integer an [int] instance stands for in arithmetic: [True] is [1]
    and [False] is [0]. *)
Definition int_of (v : val) : Z :=
  match v with VInt n => n | VBool b => Z.b2z b | _ => 0 end.

Definition float_of (v : val) : float :=
  match v with VFloat f => f | _ => PyFloat.zero end.

Definition bool_of (v : val) : bool :=
  match v with VBool b => b | _ => false end.

(** ** The mutation engine *)

Section Engine.

Context {R : Type} `{RandomSource R}.

(** [random.random()]. *)
Definition random : M R float :=
  fun w => let '(u, r) := rs_random (w_rng w) in (Ok u, set_rng r w).

(** [random.randint(a, b)]: an empty range is a [ValueError]. *)
Definition randint (a b : Z) : M R Z :=
  fun w =>
    if b <? a then (Raise (Exn ValueError "empty range for randrange()"), w)
    else let '(n, r) := rs_randint a b (w_rng w) in (Ok n, set_rng r w).

(** [random.uniform(a, b)]. *)
Definition uniform (a b : float) : M R float :=
  fun w => let '(u, r) := rs_uniform a b (w_rng w) in (Ok u, set_rng r w).

(** [random.choice(seq)]: an empty sequence is an [IndexError]. *)
Definition choice (cs : string) : M R ascii :=
  fun w =>
    match cs with
    | EmptyString =>
        (Raise (Exn IndexError "Cannot choose from an empty sequence"), w)
    | _ => let '(c, r) := rs_choice cs (w_rng w) in (Ok c, set_rng r w)
    end.

(** [''.join(random.choice(chars) for _ in range(n))]. *)
Fixpoint random_chars (chars : string) (n : nat) : M R string :=
  match n with
  | O => ret ""
  | S n' =>
      c <- choice chars ;;
      rest <- random_chars chars n' ;;
      ret (String c rest)
  end.

Definition chars : string := "abcdefghijklmnopqrstuvwxyz0123456789".

(** [mutate_value(value)], lines 119-160.  The tests are tried in the order
    of the source: [str], [int], [float], [bool], and last the fallback. *)
Definition mutate_value (value : val) : M R val :=
  if isinstance_str value then
    let s := str_of value in
    u <- random ;;
    if PyFloat.lt u PyFloat.half then
      num_chars <- randint 1 5 ;;
      suffix <- random_chars chars (Z.to_nat num_chars) ;;
      ret (VStr (s +:+ suffix))
    else
      if 2 <? len s then
        num_chars_to_remove <- randint 1 (len s / 2) ;;
        start_index <- randint 0 (len s - num_chars_to_remove) ;;
        ret (VStr (slice_to s start_index +:+
                   slice_from s (start_index + num_chars_to_remove)))
      else
        ret (VStr "")
  else if isinstance_int value then
    mutation_amount <- randint (-5) 5 ;;
    ret (VInt (int_of value + mutation_amount))
  else if isinstance_float value then
    mutation_amount <- uniform PyFloat.neg_half PyFloat.half ;;
    ret (VFloat (PyFloat.add (float_of value) mutation_amount))
  else if isinstance_bool value then
    ret (VBool (negb (bool_of value)))
  else
    logging WARNING ("Unsupported data type for mutation: " +:+
                     type_repr value +:+ ". Returning original value.") ;;;
    ret value.

(** [len(config)] when the loop starts. *)
Definition dict_len (l : loc) : M R nat :=
  fun w => (Ok (length (dict_at (w_heap w) l)), w).

(** One step of the iterator of [config.items()]: the [i]-th item of the
    live object, unless the object changed size since the loop started. *)
Definition next_item (l : loc) (n i : nat) : M R (string * val) :=
  fun w =>
    let d := dict_at (w_heap w) l in
    if (length d =? n)%nat then
      match d !! i with
      | Some kv => (Ok kv, w)
      | None =>
          (Raise (Exn RuntimeError "dictionary changed size during iteration"), w)
      end
    else
      (Raise (Exn RuntimeError "dictionary changed size during iteration"), w).

(** [config[key] = v] on the object at [l]. *)
Definition setitem (l : loc) (key : string) (v : val) : M R unit :=
  fun w =>
    (Ok tt,
     set_heap (<[l := dict_setitem key v (dict_at (w_heap w) l)]> (w_heap w)) w).

(** [mutate_config(config, mutation_rate)], lines 163-181.  [depth] bounds
    the nested calls of [mutate_config] the interpreter still allows; the
    frames of the calls its body makes ([mutate_value], [logging]) are not
    counted, and the text of the [RecursionError] is that of a call of a
    Python function.  [config.items()] on anything but a [dict] is an
    [AttributeError]. *)
Fixpoint mutate_config (depth : nat) (config : val) (mutation_rate : float)
  {struct depth} : M R val :=
  match depth with
  | O => raise (Exn RecursionError "maximum recursion depth exceeded")
  | S depth' =>
      match config with
      | VDict l =>
          n <- dict_len l ;;
          for_each (seq 0 n) (fun i =>
            kv <- next_item l n i ;;
            let '(key, value) := kv in
            if isinstance_dict value then
              v' <- mutate_config depth' value mutation_rate ;;
              setitem l key v'
            else
              u <- random ;;
              if PyFloat.lt u mutation_rate then
                v' <- mutate_value value ;;
                setitem l key v'
              else ret tt) ;;;
          ret config
      | _ =>
          raise (Exn AttributeError
                   ("'" +:+ type_name config +:+ "' object has no attribute 'items'"))
      end
  end.

(** The tree mutator in the words of the claim on rates of [1.0] and above:
    every trial selects its leaf, so every value that is not a nested
    mapping is handed to [mutate_value]. *)
Fixpoint mutate_all (depth : nat) (config : val) {struct depth} : M R val :=
  match depth with
  | O => raise (Exn RecursionError "maximum recursion depth exceeded")
  | S depth' =>
      match config with
      | VDict l =>
          n <- dict_len l ;;
          for_each (seq 0 n) (fun i =>
            kv <- next_item l n i ;;
            let '(key, value) := kv in
            if isinstance_dict value then
              v' <- mutate_all depth' value ;;
              setitem l key v'
            else
              u <- random ;;
              v' <- mutate_value value ;;
              setitem l key v') ;;;
          ret config
      | _ =>
          raise (Exn AttributeError
                   ("'" +:+ type_name config +:+ "' object has no attribute 'items'"))
      end
  end.

End Engine.

(** ** [str.format] with one positional argument

    The format-string scanner of [str.format], for text, the escapes [{{] and
    [}}], and replacement fields that name no attribute, index, conversion or
    format specification.  A template that uses one of those is outside the
    scanner and is formatted by the collaborator [str_format_ext]. *)

Module Format.

(** Automatic ([{}]) or manual ([{0}]) field numbering. *)
Inductive numbering : Type :=
| Unset
| Automatic (next : nat)
| Manual.

Inductive mode : Type :=
| Text                          (* literal text *)
| Open                          (* after a [{] *)
| Close                         (* after a [}] in literal text *)
| Field (name : string).        (* inside a replacement field *)

Record state : Type := State {
  st_mode : mode;
  st_out : string;
  st_auto : numbering
}.

Inductive outcome : Type :=
| Going (st : state)
| Done (r : res string)
| Extended.

Definition is_digit (c : ascii) : bool :=
  let n := nat_of_ascii c in (48 <=? n)%nat && (n <=? 57)%nat.

Fixpoint all_digits (s : string) : bool :=
  match s with
  | EmptyString => true
  | String c s' => is_digit c && all_digits s'
  end.

(** The index a run of decimal digits denotes. *)
Fixpoint index_of_digits (acc : N) (s : string) : N :=
  match s with
  | EmptyString => acc
  | String c s' =>
      index_of_digits (10 * acc + N.of_nat (nat_of_ascii c - 48)) s'
  end.

(** [PY_SSIZE_T_MAX] of a 64-bit build: the largest index the scanner
    reads. *)
Definition max_index : N := 9223372036854775807.

Definition value_error (msg : string) : outcome :=
  Done (Raise (Exn ValueError msg)).

(** [args[idx]] for the one-element tuple [(arg,)], appended to the output. *)
Definition substitute (arg : string) (idx : N) (out : string)
    (auto : numbering) : outcome :=
  match idx with
  | N0 => Going (State Text (out +:+ arg) auto)
  | _ =>
      Done (Raise (Exn IndexError
        ("Replacement index " +:+ pretty idx +:+
         " out of range for positional args tuple")))
  end.

(** A complete replacement field [{name}]. *)
Definition field (arg name out : string) (auto : numbering) : outcome :=
  match name with
  | EmptyString =>
      match auto with
      | Manual =>
          value_error "cannot switch from manual field specification to automatic field numbering"
      | Unset => substitute arg 0 out (Automatic 1)
      | Automatic n => substitute arg (N.of_nat n) out (Automatic (S n))
      end
  | _ =>
      if all_digits name then
        if (max_index <? index_of_digits 0 name)%N then
          value_error "Too many decimal digits in format string"
        else
          match auto with
          | Automatic _ =>
              value_error "cannot switch from automatic field numbering to manual field specification"
          | _ => substitute arg (index_of_digits 0 name) out Manual
          end
      else Done (Raise (Exn KeyError ("'" +:+ name +:+ "'")))
  end.

Definition push (s : string) (c : ascii) : string := s +:+ String c "".

(** A character of a field name: [}] ends the field, [{] is an error, and
    [.], [[], [!] and [:] start what the scanner does not cover. *)
Definition in_field (arg name : string) (out : string) (auto : numbering)
    (c : ascii) : outcome :=
  if Ascii.eqb c "}" then field arg name out auto
  else if Ascii.eqb c "{" then value_error "unexpected '{' in field name"
  else if Ascii.eqb c "." || Ascii.eqb c "[" || Ascii.eqb c "!" || Ascii.eqb c ":"
  then Extended
  else Going (State (Field (push name c)) out auto).

Definition step (arg : string) (st : state) (c : ascii) : outcome :=
  let out := st_out st in
  let auto := st_auto st in
  match st_mode st with
  | Text =>
      if Ascii.eqb c "{" then Going (State Open out auto)
      else if Ascii.eqb c "}" then Going (State Close out auto)
      else Going (State Text (push out c) auto)
  | Open =>
      if Ascii.eqb c "{" then Going (State Text (push out c) auto)
      else in_field arg "" out auto c
  | Close =>
      if Ascii.eqb c "}" then Going (State Text (push out c) auto)
      else value_error "Single '}' encountered in format string"
  | Field name => in_field arg name out auto c
  end.

Definition finish (st : state) : outcome :=
  match st_mode st with
  | Text => Done (Ok (st_out st))
  | Open => value_error "Single '{' encountered in format string"
  | Close => value_error "Single '}' encountered in format string"
  | Field _ => value_error "expected '}' before end of string"
  end.

Fixpoint scan (arg : string) (st : state) (template : string) : outcome :=
  match template with
  | EmptyString => finish st
  | String c rest =>
      match step arg st c with
      | Going st' => scan arg st' rest
      | o => o
      end
  end.

(** [template.format(arg)]. *)
Definition format (ext : string -> string -> res string)
    (template arg : string) : res string :=
  match scan arg (State Text "" Unset) template with
  | Done r => r
  | Going _ => Raise (Exn ValueError "expected '}' before end of string")
  | Extended => ext template arg
  end.

End Format.

(** ** The session orchestrator *)

(** [argparse.Namespace] as [setup_argparse] declares it: [mutation_rate] is
    any [float], [output_file] and [test_command] default to [None], and
    [lint] is a flag. *)
Record Args : Type := {
  config_file : string;
  mutation_rate : float;
  output_file : option string;
  test_command : option string;
  lint : bool
}.

(** Truth value of an optional string: [None] and [""] are false. *)
Definition truthy (o : option string) : bool :=
  match o with
  | None | Some EmptyString => false
  | Some _ => true
  end.

Definition nl : string := String (ascii_of_nat 10) "".

Section Orchestrator.

Context {R : Type} `{RandomSource R} (env : Env).

(** [os.path.exists(path)]. *)
Definition os_path_exists (path : string) : M R bool :=
  fun w => (Ok (bool_decide (is_Some (w_fs w !! path))), w).

(** [open(path, "r")] followed by reading the text. *)
Definition open_read (path : string) : M R string :=
  fun w =>
    let w' := emit (OpenRead path) w in
    match open_read_error env (w_fs w) path with
    | Some e => (Raise e, w')
    | None =>
        match w_fs w !! path with
        | Some (File content) => (Ok content, w')
        | Some Dir =>
            (Raise (Exn IsADirectoryError
                   ("[Errno 21] Is a directory: '" +:+ path +:+ "'")), w')
        | None =>
            (Raise (Exn FileNotFoundError
                   ("[Errno 2] No such file or directory: '" +:+ path +:+ "'")), w')
        end
    end.

(** [open(path, "w")]: the file is created, or truncated. *)
Definition open_write (path : string) : M R unit :=
  fun w =>
    let w' := emit (OpenWrite path) w in
    match open_write_error env (w_fs w) path with
    | Some e => (Raise e, w')
    | None =>
        match w_fs w !! path with
        | Some Dir =>
            (Raise (Exn IsADirectoryError
                   ("[Errno 21] Is a directory: '" +:+ path +:+ "'")), w')
        | _ => (Ok tt, set_fs (<[path := File ""]> (w_fs w)) w')
        end
    end.

(** The parsed document becomes the content of the object store. *)
Definition parse (parser : string -> res (heap * val)) (text : string) : M R val :=
  fun w =>
    match parser text with
    | Ok (h, v) => (Ok v, set_heap h w)
    | Raise e => (Raise e, w)
    end.

(** Serialisation into the open file; what was written stays in the file
    when the serialiser raises. *)
Definition dump (dumper : heap -> val -> string * option exn)
    (config : val) (path : string) : M R unit :=
  fun w =>
    let '(text, err) := dumper (w_heap w) config in
    let w' := set_fs (<[path := File text]> (w_fs w)) w in
    match err with
    | Some e => (Raise e, w')
    | None => (Ok tt, w')
    end.

(** [subprocess.run(cmd, capture_output=True, text=True)]. *)
Definition run (cmd : command) : M R completed :=
  fun w =>
    let '(r, fs') := subprocess_run env cmd (w_fs w) in
    (r, set_fs fs' (emit (Run cmd) w)).

Definition is_yaml (path : string) : bool :=
  endswith path ".yaml" || endswith path ".yml".
Definition is_json (path : string) : bool := endswith path ".json".

(** [load_config(config_file)], lines 55-88. *)
Definition load_config (config_file : string) : M R val :=
  found <- os_path_exists config_file ;;
  if negb found then
    raise (Exn FileNotFoundError ("Configuration file not found: " +:+ config_file))
  else
    try_except
      (f <- open_read config_file ;;
       if is_yaml config_file then parse (yaml_safe_load env) f
       else if is_json config_file then parse (json_load env) f
       else raise (Exn ValueError
                     "Unsupported configuration file type.  Must be YAML or JSON."))
      (fun e =>
         if is_YAMLError e then
           logging ERROR ("Error parsing YAML file: " +:+ exn_str e) ;;; raise e
         else if is_JSONDecodeError e then
           logging ERROR ("Error parsing JSON file: " +:+ exn_str e) ;;; raise e
         else raise e).

(** [save_config(config, output_file)], lines 91-116. *)
Definition save_config (config : val) (output_file : string) : M R unit :=
  try_except
    (open_write output_file ;;;
     (if is_yaml output_file then dump (yaml_dump env) config output_file
      else if is_json output_file then dump (json_dump env) config output_file
      else raise (Exn ValueError
                    "Unsupported configuration file type. Must be YAML or JSON.")) ;;;
     logging INFO ("Mutated configuration saved to: " +:+ output_file))
    (fun e =>
       logging ERROR ("Error writing configuration to file: " +:+ exn_str e) ;;;
       raise e).

(** [run_test_command(config_file, test_command)], lines 184-205. *)
Definition run_test_command (config_file test_command : string) : M R Z :=
  try_except
    (command <- (fun w => (Format.format (str_format_ext env) test_command config_file, w)) ;;
     logging INFO ("Executing test command: " +:+ command) ;;;
     result <- run (Shell command) ;;
     logging INFO ("Command output:" +:+ nl +:+ stdout result) ;;;
     (if negb (String.eqb (stderr result) "") then
        logging ERROR ("Command error:" +:+ nl +:+ stderr result)
      else ret tt) ;;;
     logging INFO ("Command return code: " +:+ pretty (returncode result)) ;;;
     ret (returncode result))
    (fun e =>
       logging ERROR ("Error executing test command: " +:+ exn_str e) ;;;
       ret (-1)).

(** The body shared by the two linters of [lint_config]. *)
Definition lint_with (tool config_file : string) : M R bool :=
  result <- run (Argv [tool; config_file]) ;;
  if negb (returncode result =? 0) then
    logging ERROR (tool +:+ " found errors:" +:+ nl +:+ stderr result) ;;;
    ret false
  else
    logging INFO (tool +:+ " passed successfully.") ;;;
    ret true.

(** [lint_config(config_file)], lines 208-241. *)
Definition lint_config (config_file : string) : M R bool :=
  try_except
    (if is_yaml config_file then lint_with "yamllint" config_file
     else if is_json config_file then lint_with "jsonlint" config_file
     else
       logging WARNING "Unsupported file type for linting.  Skipping linting." ;;;
       ret true)
    (fun e =>
       if is_FileNotFoundError e then
         logging ERROR ("Linting tool not found: " +:+ exn_str e) ;;; ret false
       else
         logging ERROR ("Error during linting: " +:+ exn_str e) ;;; ret false).

(** Stage 5 of [main], lines 269-280. *)
Definition test_stage (args : Args) (output_file : string) : M R Z :=
  if truthy (test_command args) then
    return_code <- run_test_command output_file (default "" (test_command args)) ;;
    if negb (return_code =? 0) then
      logging ERROR "Test command failed." ;;; ret 1
    else
      logging INFO "Test command passed." ;;; ret 0
  else
    logging INFO "Configuration mutated successfully." ;;; ret 0.

(** Stages 1 to 3 of [main], lines 251-261: load, mutate, save.  The value
    is [output_file]. *)
Definition prepare (args : Args) : M R string :=
  config <- load_config (config_file args) ;;
  mutated_config <- mutate_config (recursion_limit env) config (mutation_rate args) ;;
  let output_file :=
    if truthy (output_file args) then default "" (output_file args)
    else config_file args in
  save_config mutated_config output_file ;;;
  ret output_file.

(** Stage 4 of [main], lines 263-267, and what follows it. *)
Definition lint_gate (args : Args) (output_file : string) : M R Z :=
  if lint args then
    lint_ok <- lint_config output_file ;;
    if negb lint_ok then
      logging ERROR "Linting failed.  Aborting test." ;;; ret 1
    else test_stage args output_file
  else test_stage args output_file.

(** The [try] statement of [main()], lines 250-290, for the namespace
    [args] that [parser.parse_args()] returned at lines 247-248; the value
    returned is the exit code.  Parsing the command line comes before the
    [try] and is not part of this definition: on a command line it rejects,
    [parse_args] leaves the program by [SystemExit]. *)
Definition main (args : Args) : M R Z :=
  try_except
    (output_file <- prepare args ;;
     lint_gate args output_file)
    (fun e =>
       if is_FileNotFoundError e then
         logging ERROR ("File not found: " +:+ exn_str e) ;;; ret 1
       else if is_ValueError e then
         logging ERROR ("Value error: " +:+ exn_str e) ;;; ret 1
       else
         logging ERROR ("An unexpected error occurred: " +:+ exn_str e) ;;; ret 1).

End Orchestrator.

(** ** A scripted random source

    A replayable generator for tests: the script lists the draws to hand out,
    and a draw that is missing, of the wrong kind or out of range is replaced
    by the least value allowed. *)

Module Scripted.

Inductive draw : Type :=
| DFloat (f : float)
| DInt (n : Z)
| DChar (c : ascii).

Definition script : Type := list draw.

Definition random (r : script) : float * script :=
  match r with
  | DFloat f :: r' =>
      if PyFloat.le PyFloat.zero f && PyFloat.lt f PyFloat.one
      then (f, r') else (PyFloat.zero, r')
  | _ :: r' => (PyFloat.zero, r')
  | [] => (PyFloat.zero, [])
  end.

Definition randint (a b : Z) (r : script) : Z * script :=
  match r with
  | DInt n :: r' => if (a <=? n) && (n <=? b) then (n, r') else (a, r')
  | _ :: r' => (a, r')
  | [] => (a, [])
  end.

Definition uniform (a b : float) (r : script) : float * script :=
  match r with
  | DFloat f :: r' =>
      if PyFloat.le a f && PyFloat.le f b then (f, r') else (a, r')
  | _ :: r' => (a, r')
  | [] => (a, [])
  end.

Definition mem (c : ascii) (cs : string) : bool :=
  existsb (Ascii.eqb c) (list_ascii_of_string cs).

Definition first (cs : string) : ascii :=
  match cs with
  | String c _ => c
  | EmptyString => Ascii.zero
  end.

Definition choice (cs : string) (r : script) : ascii * script :=
  match r with
  | DChar c :: r' => if mem c cs then (c, r') else (first cs, r')
  | _ :: r' => (first cs, r')
  | [] => (first cs, [])
  end.

End Scripted.

(** ** Vocabulary of the properties *)

(** What a value contributes to the nesting structure: the nested mapping it
    refers to, or nothing for a leaf. *)
Definition shape_val (v : val) : option loc :=
  match v with VDict l => Some l | _ => None end.

(** The keys of a mapping, in order, each with the nesting below it. *)
Definition shape_obj (d : dict_obj) : list (string * option loc) :=
  (fun kv => (kv.1, shape_val kv.2)) <$> d.

(** Key set and nesting structure of every mapping of the store. *)
Definition shape (h : heap) : list (list (string * option loc)) :=
  shape_obj <$> h.

(** The keys of a [dict] are pairwise distinct. *)
Definition unique_keys (h : heap) : Prop :=
  Forall (fun d => NoDup d.*1) h.

#[global] Instance unique_keys_dec (h : heap) : Decision (unique_keys h) :=
  Forall_dec _ h.

(** The mappings below [l] nest less than [depth] levels deep: a config tree
    that [depth] nested calls can walk. *)
Fixpoint within_depth (depth : nat) (sh : list (list (string * option loc)))
    (l : loc) : bool :=
  match depth with
  | O => false
  | S depth' =>
      forallb (fun kt => match kt.2 with
                         | Some l' => within_depth depth' sh l'
                         | None => true
                         end)
              (default [] (sh !! l))
  end.

(** [l0] is the mapping at [l] or one nested below it. *)
Inductive reachable (sh : list (list (string * option loc))) (l : loc)
  : loc -> Prop :=
| reach_here : reachable sh l l
| reach_below i k l' l0 :
    default [] (sh !! l) !! i = Some (k, Some l') ->
    reachable sh l' l0 ->
    reachable sh l l0.

Definition recursion_error : exn :=
  Exn RecursionError "maximum recursion depth exceeded".

(** The events that invoke the test command: a shell command line. *)
Definition is_test_run (e : event) : bool :=
  match e with Run (Shell _) => true | _ => false end.

(** The events that create or overwrite a file. *)
Definition is_write (e : event) : bool :=
  match e with OpenWrite _ => true | _ => false end.

(** The linter chosen for a file, by extension. *)
Definition linter_of (path : string) : option string :=
  if is_yaml path then Some "yamllint"
  else if is_json path then Some "jsonlint"
  else None.

(** The lint stage fails: the linter exits with a nonzero code, or cannot be
    started. *)
Definition lint_fails (env : Env) (path : string) (fs : filesystem) : Prop :=
  exists tool, linter_of path = Some tool /\
    match (subprocess_run env (Argv [tool; path]) fs).1 with
    | Ok p => returncode p <> 0
    | Raise _ => True
    end.

(** No character of [s] is a brace. *)
Definition brace_free (s : string) : bool :=
  forallb (fun c => negb (Ascii.eqb c "{") && negb (Ascii.eqb c "}"))
          (list_ascii_of_string s).



(** The record by which [run_test_command] reports an exception. *)
Definition is_invocation_error (e : event) : bool :=
  match e with
  | Log ERROR msg => String.prefix "Error executing test command: " msg
  | _ => false
  end.

Definition not_invocation_error (e : event) : bool :=
  negb (is_invocation_error e).

Definition set_rate (rate : float) (args : Args) : Args :=
  {| config_file := config_file args;
     mutation_rate := rate;
     output_file := output_file args;
     test_command := test_command args;
     lint := lint args |}.

(** The events other than an invocation of the test command. *)
Definition not_test_run (e : event) : bool := negb (is_test_run e).

Section ProofVocabulary.

Context {R : Type} `{RandomSource R}.

(** [w'] extends the trace of [w] by events that all satisfy [P]. *)
Definition trace_ext (P : event -> bool) (w w' : world R) : Prop :=
  exists evs, w_trace w' = w_trace w ++ evs /\ forallb P evs = true.

(** Whatever the world, [m] appends only events that satisfy [P]. *)
Definition emits (P : event -> bool) {A} (m : M R A) : Prop :=
  forall w, trace_ext P w (m w).2.

(** [m] returns normally a value satisfying [Q], and touches neither the
    object store nor the file system. *)
Definition keeps {A} (Q : A -> Prop) (m : M R A) : Prop :=
  forall w, exists a w', m w = (Ok a, w') /\ Q a /\
    w_heap w' = w_heap w /\ w_fs w' = w_fs w.

(** The objects a call on [l] may not touch: those not reachable from
    [l]. *)
Definition frame (sh : list (list (string * option loc))) (l : loc)
    (h h' : heap) : Prop :=
  forall l0, ~ reachable sh l l0 -> h' !! l0 = h !! l0.

(** The body of the loop of [mutate_config], with [rec] for the nested
    call. *)
Definition visit (rec : val -> M R val) (l : loc) (n : nat) (rate : float)
    (i : nat) : M R unit :=
  bind (next_item l n i) (fun kv =>
    let '(key, value) := kv in
    if isinstance_dict value then
      bind (rec value) (fun v' => setitem l key v')
    else
      bind random (fun u =>
        if PyFloat.lt u rate then
          bind (mutate_value value) (fun v' => setitem l key v')
        else ret tt)).

(** The body of the loop of [mutate_all]. *)
Definition visit_all (rec : val -> M R val) (l : loc) (n : nat) (i : nat)
    : M R unit :=
  bind (next_item l n i) (fun kv =>
    let '(key, value) := kv in
    if isinstance_dict value then
      bind (rec value) (fun v' => setitem l key v')
    else
      bind random (fun u =>
        bind (mutate_value value) (fun v' => setitem l key v'))).

End ProofVocabulary.

(** ** Vocabulary of the further properties *)

(** A value [mutate_value] has no strategy for and that is not a mapping:
    [None] or a list. *)
Definition opaque (v : val) : bool :=
  match v with VNone | VList _ => true | _ => false end.

(** An infinity or a NaN. *)
Definition non_finite (f : float) : bool :=
  match f with S754_infinity _ | S754_nan => true | _ => false end.

(** Every character of [s] occurs in [cs]. *)
Definition drawn_from (cs s : string) : Prop :=
  forall c, In c (list_ascii_of_string s) -> In c (list_ascii_of_string cs).

(** Through [h'] every opaque item of [h] is where it was, unchanged. *)
Definition opaque_kept (h h' : heap) : Prop :=
  forall l i k v, dict_at h l !! i = Some (k, v) -> opaque v = true ->
    dict_at h' l !! i = Some (k, v).

(** The events that start a linter: a command given as an argument vector. *)
Definition is_lint_run (e : event) : bool :=
  match e with Run (Argv _) => true | _ => false end.

Definition not_lint_run (e : event) : bool := negb (is_lint_run e).

Definition not_write (e : event) : bool := negb (is_write e).

(** The events that start no process. *)
Definition not_run (e : event) : bool :=
  match e with Run _ => false | _ => true end.

(** [P] admits every logging record and every opening of a file. *)
Definition admits_io (P : event -> bool) : Prop :=
  (forall lvl msg, P (Log lvl msg) = true) /\
  (forall path, P (OpenRead path) = true) /\
  (forall path, P (OpenWrite path) = true).

(** A verdict: exit code 0 after an INFO record, or exit code 1 after an
    ERROR record. *)
Definition verdict {R} (out : res Z * world R) : Prop :=
  exists code lvl msg w', out = (Ok code, emit (Log lvl msg) w') /\
    ((code = 0 /\ lvl = INFO) \/ (code = 1 /\ lvl = ERROR)).

(** The events of a stage that only reads: logging records and openings
    for reading. *)
Definition read_only (e : event) : bool :=
  match e with Log _ _ | OpenRead _ => true | _ => false end.

(** ** Sample inputs *)

Module Sample.

(** [2.0]. *)
Definition two : float := S754_finite false 4503599627370496 (-51).

(** The document [{name: svc, port: 3, tls: {enabled: true, ratio: 1.0,
    ca: null}, tags: [a, b]}]: the root mapping at address 0 and the nested
    one at address 1. *)
Definition document : heap :=
  [ [("name", VStr "svc"); ("port", VInt 3); ("tls", VDict 1%nat);
     ("tags", VList [VStr "a"; VStr "b"])];
    [("enabled", VBool true); ("ratio", VFloat PyFloat.one); ("ca", VNone)] ].

Definition draws : Scripted.script :=
  [ Scripted.DFloat PyFloat.half; Scripted.DFloat PyFloat.zero;
    Scripted.DInt 2; Scripted.DFloat PyFloat.zero; Scripted.DInt (-1) ].

(** A world holding the document, with no file. *)
Definition loaded : world Scripted.script := World document draws ∅ [].

(** A world in which [port.json] holds one integer. *)
Definition small : world Scripted.script :=
  World [[("port", VInt 3)]]
        [Scripted.DFloat PyFloat.zero; Scripted.DInt 2] ∅ [].

Definition sh : string := "/bin/sh".

(** Collaborators: every parse yields the document, every dump succeeds,
    the linter reports errors, and a shell command exits with status 3 when
    there is a shell and cannot be started when there is none. *)
Definition env : Env := {|
  yaml_safe_load := fun _ => Ok (document, VDict 0%nat);
  json_load := fun _ => Ok (document, VDict 0%nat);
  yaml_dump := fun _ _ => ("name: svc", None);
  json_dump := fun _ _ => ("{}", None);
  open_read_error := fun _ _ => None;
  open_write_error := fun _ _ => None;
  subprocess_run := fun cmd fs =>
    match cmd with
    | Argv _ => (Ok (Completed (Exited 1) "" "syntax error"), fs)
    | Shell _ =>
        match fs !! sh with
        | Some _ => (Ok (Completed (Exited 3) "" "boom"), fs)
        | None => (Raise (Exn FileNotFoundError "No such file or directory: '/bin/sh'"), fs)
        end
    end;
  str_format_ext := fun _ _ => Raise (Exn ValueError "Invalid format specifier");
  recursion_limit := 1000
|}.

Definition args : Args := {|
  config_file := "app.yaml";
  mutation_rate := two;
  output_file := Some "out.yaml";
  test_command := Some "my_app --config {}";
  lint := true
|}.

(** Before the run: [app.yaml] exists, there is no shell. *)
Definition start : world Scripted.script :=
  World [] draws {[ "app.yaml" := File "name: svc" ]} [].

(** The same with a shell. *)
Definition start_sh : world Scripted.script :=
  World [] draws {[ "app.yaml" := File "name: svc"; sh := File "" ]} [].

(** No file at all. *)
Definition empty : world Scripted.script := World [] draws ∅ [].

End Sample.

(** ** Further sample inputs *)

Module Sample2.

(** Draws that take the append branch with two characters. *)
Definition append_ab : world Scripted.script :=
  World [] [ Scripted.DFloat PyFloat.zero; Scripted.DInt 2;
             Scripted.DChar "a"; Scripted.DChar "b" ] ∅ [].

(** Draws that take the delete branch: two characters from offset one. *)
Definition delete_2_at_1 : world Scripted.script :=
  World [] [ Scripted.DFloat PyFloat.half; Scripted.DInt 2; Scripted.DInt 1 ] ∅ [].

Definition infinity : float := S754_infinity false.

(** Parsers that fail. *)
Definition env_broken : Env := {|
  yaml_safe_load := fun _ =>
    Raise (Exn YAMLError "mapping values are not allowed here");
  json_load := fun _ =>
    Raise (Exn JSONDecodeError "Expecting value: line 1 column 1 (char 0)");
  yaml_dump := yaml_dump Sample.env;
  json_dump := json_dump Sample.env;
  open_read_error := open_read_error Sample.env;
  open_write_error := open_write_error Sample.env;
  subprocess_run := subprocess_run Sample.env;
  str_format_ext := str_format_ext Sample.env;
  recursion_limit := recursion_limit Sample.env
|}.

(** Parsers that find an empty document. *)
Definition env_null : Env := {|
  yaml_safe_load := fun _ => Ok ([], VNone);
  json_load := fun _ => Ok ([], VNone);
  yaml_dump := yaml_dump Sample.env;
  json_dump := json_dump Sample.env;
  open_read_error := open_read_error Sample.env;
  open_write_error := open_write_error Sample.env;
  subprocess_run := subprocess_run Sample.env;
  str_format_ext := str_format_ext Sample.env;
  recursion_limit := recursion_limit Sample.env
|}.

(** Processes that all exit with status 0. *)
Definition env_passing : Env := {|
  yaml_safe_load := yaml_safe_load Sample.env;
  json_load := json_load Sample.env;
  yaml_dump := yaml_dump Sample.env;
  json_dump := json_dump Sample.env;
  open_read_error := open_read_error Sample.env;
  open_write_error := open_write_error Sample.env;
  subprocess_run := fun _ fs => (Ok (Completed (Exited 0) "ok" ""), fs);
  str_format_ext := str_format_ext Sample.env;
  recursion_limit := recursion_limit Sample.env
|}.

(** A shell that is ended by signal 1 (SIGHUP) when there is one, and
    cannot be started when there is none. *)
Definition env_hangup : Env := {|
  yaml_safe_load := yaml_safe_load Sample.env;
  json_load := json_load Sample.env;
  yaml_dump := yaml_dump Sample.env;
  json_dump := json_dump Sample.env;
  open_read_error := open_read_error Sample.env;
  open_write_error := open_write_error Sample.env;
  subprocess_run := fun cmd fs =>
    match cmd with
    | Argv _ => (Ok (Completed (Exited 0) "" ""), fs)
    | Shell _ =>
        match fs !! Sample.sh with
        | Some _ => (Ok (Completed (Signaled 1) "" ""), fs)
        | None =>
            (Raise (Exn FileNotFoundError
                      "[Errno 2] No such file or directory: '/bin/sh'"), fs)
        end
    end;
  str_format_ext := str_format_ext Sample.env;
  recursion_limit := recursion_limit Sample.env
|}.

(** A run with a test command and without lint. *)
Definition args_test : Args := {|
  config_file := "app.yaml";
  mutation_rate := PyFloat.half;
  output_file := Some "out.yaml";
  test_command := Some "my_app --config {}";
  lint := false
|}.

Definition args_for (path : string) : Args := {|
  config_file := path;
  mutation_rate := PyFloat.half;
  output_file := None;
  test_command := Some "";
  lint := false
|}.

(** A world with one file at [path]. *)
Definition with_file (path : string) : world Scripted.script :=
  World [] Sample.draws {[ path := File "name: svc" ]} [].

End Sample2.

(** ** Facts on float comparison *)

Lemma lt_zero_false (d : float) :
  PyFloat.le PyFloat.zero d = true -> PyFloat.lt d PyFloat.zero = false.
Proof.
  unfold PyFloat.le, PyFloat.lt, SFleb, SFltb, PyFloat.zero.
  destruct d as [s|s| |s m e]; cbn; try destruct s; cbn; congruence.
Qed.

Lemma SFltb_SFleb_trans (x y z : spec_float) :
  SFltb x y = true -> SFleb y z = true -> SFltb x z = true.
Proof.
  unfold SFleb, SFltb.
  destruct x as [s|s| |s m e], y as [s0|s0| |s0 m0 e0], z as [s'|s'| |s' m' e'];
    cbn [SFcompare];
    try destruct s; try destruct s0; try destruct s'; try congruence.
  all: change (Pos.compare_cont Eq ?a ?b) with (a ?= b)%positive.
  all: destruct (Z.compare_spec e e0), (Z.compare_spec e0 e'),
    (Z.compare_spec e e'); try congruence; try lia.
  all: destruct (Pos.compare_spec m m0), (Pos.compare_spec m0 m'),
      (Pos.compare_spec m m'); cbn; try congruence; try lia.
Qed.

Lemma lt_one_le (d rate : float) :
  PyFloat.lt d PyFloat.one = true -> PyFloat.le PyFloat.one rate = true ->
  PyFloat.lt d rate = true.
Proof. apply SFltb_SFleb_trans. Qed.

Lemma le_refl_of_le (a b : float) :
  PyFloat.le a b = true -> PyFloat.le a a = true.
Proof.
  unfold PyFloat.le, SFleb.
  destruct a as [s|s| |s m e]; cbn [SFcompare]; try destruct s; try congruence;
    intros _; rewrite ?Z.compare_refl;
    change (Pos.compare_cont Eq ?a ?b) with (a ?= b)%positive;
    rewrite ?Pos.compare_refl; reflexivity.
Qed.

(** ** The scripted source is a random source *)

Module ScriptedLaws.
Import Scripted.

Lemma random_range (r : script) :
  PyFloat.le PyFloat.zero (random r).1 = true /\
  PyFloat.lt (random r).1 PyFloat.one = true.
Proof.
  destruct r as [|[f|n|c] r']; cbn [random]; try (split; reflexivity).
  destruct (PyFloat.le PyFloat.zero f && PyFloat.lt f PyFloat.one) eqn:E.
  - apply andb_true_iff in E. exact E.
  - split; reflexivity.
Qed.

Lemma randint_range (a b : Z) (r : script) :
  a <= b -> a <= (randint a b r).1 <= b.
Proof.
  intros Hab. destruct r as [|[f|n|c] r']; cbn [randint fst]; try lia.
  destruct ((a <=? n) && (n <=? b)) eqn:E; cbn [fst]; lia.
Qed.

Lemma uniform_range (a b : float) (r : script) :
  PyFloat.le a b = true ->
  PyFloat.le a (uniform a b r).1 = true /\
  PyFloat.le (uniform a b r).1 b = true.
Proof.
  intros Hab. pose proof (le_refl_of_le a b Hab) as Haa.
  destruct r as [|[f|n|c] r']; cbn [uniform fst]; try (split; assumption).
  destruct (PyFloat.le a f && PyFloat.le f b) eqn:E; cbn [fst].
  - apply andb_true_iff in E. exact E.
  - split; assumption.
Qed.

Lemma first_elem (cs : string) :
  cs <> "" -> In (first cs) (list_ascii_of_string cs).
Proof. destruct cs; [congruence | intros _; left; reflexivity]. Qed.

Lemma mem_elem (c : ascii) (cs : string) :
  mem c cs = true -> In c (list_ascii_of_string cs).
Proof.
  unfold mem. intros E. apply existsb_exists in E as (x & Hx & Heq).
  apply Ascii.eqb_eq in Heq. subst. exact Hx.
Qed.

Lemma choice_elem (cs : string) (r : script) :
  cs <> "" -> In (choice cs r).1 (list_ascii_of_string cs).
Proof.
  intros Hne. pose proof (first_elem cs Hne).
  destruct r as [|[f|n|c] r']; cbn [choice fst]; try assumption.
  destruct (mem c cs) eqn:E; cbn [fst]; [apply mem_elem|]; assumption.
Qed.

End ScriptedLaws.

#[export] Instance scripted_source : RandomSource Scripted.script := {|
  rs_random := Scripted.random;
  rs_randint := Scripted.randint;
  rs_uniform := Scripted.uniform;
  rs_choice := Scripted.choice;
  rs_random_range := ScriptedLaws.random_range;
  rs_randint_range := ScriptedLaws.randint_range;
  rs_uniform_range := ScriptedLaws.uniform_range;
  rs_choice_elem := ScriptedLaws.choice_elem
|}.

(** ** Which events a computation appends to the trace *)

Section Traces.

Context {R : Type}.

Lemma trace_ext_refl P (w : world R) : trace_ext P w w.
Proof. exists []. split; [symmetry; apply app_nil_r | reflexivity]. Qed.

Lemma trace_ext_same P (w w' : world R) :
  w_trace w' = w_trace w -> trace_ext P w w'.
Proof. intros E. exists []. rewrite E, app_nil_r. split; reflexivity. Qed.

Lemma trace_ext_trans P (w1 w2 w3 : world R) :
  trace_ext P w1 w2 -> trace_ext P w2 w3 -> trace_ext P w1 w3.
Proof.
  intros (e1 & E1 & F1) (e2 & E2 & F2). exists (e1 ++ e2). split.
  - rewrite E2, E1. symmetry. apply app_assoc.
  - rewrite forallb_app, F1, F2. reflexivity.
Qed.

Lemma trace_ext_emit P (e : event) (w : world R) :
  P e = true -> trace_ext P w (emit e w).
Proof. intros HP. exists [e]. cbn. rewrite HP. split; reflexivity. Qed.

Lemma emits_silent P {A} (m : M R A) :
  (forall w, w_trace (m w).2 = w_trace w) -> emits P m.
Proof. intros Hm w. apply trace_ext_same, Hm. Qed.

Lemma emits_ret P {A} (a : A) : emits P (ret (R := R) a).
Proof. intros w. apply trace_ext_refl. Qed.

Lemma emits_raise P {A} (e : exn) : emits P (raise (R := R) (A := A) e).
Proof. intros w. apply trace_ext_refl. Qed.

Lemma emits_bind P {A B} (m : M R A) (k : A -> M R B) :
  emits P m -> (forall a, emits P (k a)) -> emits P (bind m k).
Proof.
  intros Hm Hk w. unfold bind. specialize (Hm w).
  destruct (m w) as [[a|e] w']; cbn in *; [|exact Hm].
  eapply trace_ext_trans; [exact Hm | apply Hk].
Qed.

Lemma emits_try_except P {A} (m : M R A) (h : exn -> M R A) :
  emits P m -> (forall e, emits P (h e)) -> emits P (try_except m h).
Proof.
  intros Hm Hh w. unfold try_except. specialize (Hm w).
  destruct (m w) as [[a|e] w']; cbn in *; [exact Hm|].
  eapply trace_ext_trans; [exact Hm | apply Hh].
Qed.

Lemma emits_for_each P {A} (xs : list A) (body : A -> M R unit) :
  (forall x, emits P (body x)) -> emits P (for_each xs body).
Proof.
  intros Hb. induction xs as [|x xs IH]; cbn [for_each].
  - apply emits_ret.
  - apply emits_bind; [apply Hb | intros _; exact IH].
Qed.

Lemma emits_logging P lvl msg :
  P (Log lvl msg) = true -> emits P (logging (R := R) lvl msg).
Proof. intros HP w. apply trace_ext_emit, HP. Qed.

End Traces.

(** Takes a goal [emits P m] apart along the structure of [m]. *)
Ltac emits_step :=
  match goal with
  | |- emits _ (bind _ _) => apply emits_bind; [|intros ?]
  | |- emits _ (try_except _ _) => apply emits_try_except; [|intros ?]
  | |- emits _ (for_each _ _) => apply emits_for_each; intros ?
  | |- emits _ (ret _) => apply emits_ret
  | |- emits _ (raise _) => apply emits_raise
  | |- emits _ (logging _ _) => apply emits_logging; reflexivity
  | |- emits _ (if ?b then _ else _) => destruct b
  | |- emits _ (let '(_, _) := ?p in _) => destruct p
  end.

(** ** Facts on the mutation engine *)

Section EngineFacts.

Context {R : Type} `{RandomSource R}.

Implicit Types (w : world R) (l : loc) (h : heap) (d : dict_obj).

(** *** The primitives leave the trace alone *)

Lemma emits_random P : emits P random.
Proof.
  apply emits_silent. intros w. unfold random.
  destruct (rs_random (w_rng w)); reflexivity.
Qed.

Lemma emits_randint P a b : emits P (randint a b).
Proof.
  apply emits_silent. intros w. unfold randint.
  destruct (b <? a); [reflexivity|].
  destruct (rs_randint a b (w_rng w)); reflexivity.
Qed.

Lemma emits_uniform P a b : emits P (uniform a b).
Proof.
  apply emits_silent. intros w. unfold uniform.
  destruct (rs_uniform a b (w_rng w)); reflexivity.
Qed.

Lemma emits_choice P cs : emits P (choice cs).
Proof.
  apply emits_silent. intros w. unfold choice.
  destruct cs; [reflexivity|].
  destruct (rs_choice _ (w_rng w)); reflexivity.
Qed.

Lemma emits_random_chars P cs n : emits P (random_chars cs n).
Proof.
  induction n as [|n IH]; cbn [random_chars].
  - apply emits_ret.
  - apply emits_bind; [apply emits_choice | intros c].
    apply emits_bind; [exact IH | intros rest; apply emits_ret].
Qed.

Lemma emits_dict_len P l : emits P (dict_len (R := R) l).
Proof. apply emits_silent. reflexivity. Qed.

Lemma emits_next_item P l n i : emits P (next_item (R := R) l n i).
Proof.
  apply emits_silent. intros w. unfold next_item.
  destruct (_ =? _)%nat; [|reflexivity].
  destruct (_ !! _); reflexivity.
Qed.

Lemma emits_setitem P l k v : emits P (setitem (R := R) l k v).
Proof. apply emits_silent. reflexivity. Qed.

(** [mutate_value] appends nothing but logging records. *)
Lemma emits_mutate_value P v :
  (forall lvl msg, P (Log lvl msg) = true) -> emits P (mutate_value v).
Proof.
  intros HP. unfold mutate_value.
  repeat first
    [ apply emits_random | apply emits_randint | apply emits_uniform
    | apply emits_random_chars | apply emits_logging, HP | emits_step ].
Qed.

(** So does [mutate_config]. *)
Lemma emits_mutate_config P depth config rate :
  (forall lvl msg, P (Log lvl msg) = true) ->
  emits P (mutate_config depth config rate).
Proof.
  intros HP. revert config.
  induction depth as [|depth IH]; intros config; cbn [mutate_config].
  - apply emits_raise.
  - destruct config; try apply emits_raise.
    repeat first
      [ apply emits_dict_len | apply emits_next_item | apply emits_setitem
      | apply emits_random | apply emits_mutate_value, HP | apply IH
      | emits_step ].
Qed.

End EngineFacts.

(** ** Facts on the object store *)

Section HeapFacts.

Implicit Types (l : loc) (h : heap) (d : dict_obj).

Lemma dict_setitem_at d i k v v' :
  NoDup d.*1 -> d !! i = Some (k, v) ->
  dict_setitem k v' d = <[i := (k, v')]> d.
Proof.
  revert i. induction d as [|[k0 v0] d IH]; intros i Hnd Hi; [done|].
  cbn [dict_setitem]. destruct i as [|i]; cbn in Hi.
  - injection Hi as -> ->. by rewrite String.eqb_refl.
  - cbn in Hnd. apply NoDup_cons in Hnd as [Hk0 Hnd].
    destruct (String.eqb_spec k k0) as [->|Hne].
    + exfalso. apply Hk0. apply list_elem_of_fmap.
      exists (k0, v). split; [done|]. by eapply list_elem_of_lookup_2.
    + cbn. f_equal. by apply IH.
Qed.

Lemma shape_obj_keys d : (shape_obj d).*1 = d.*1.
Proof. unfold shape_obj. rewrite <- list_fmap_compose. done. Qed.

Lemma shape_dict_at h l : shape_obj (dict_at h l) = default [] (shape h !! l).
Proof.
  unfold dict_at, shape. rewrite list_lookup_fmap.
  by destruct (h !! l).
Qed.

Lemma shape_lookup d i k v :
  d !! i = Some (k, v) -> shape_obj d !! i = Some (k, shape_val v).
Proof. intros E. unfold shape_obj. by rewrite list_lookup_fmap, E. Qed.

Lemma unique_keys_shape h1 h2 :
  shape h1 = shape h2 -> unique_keys h2 -> unique_keys h1.
Proof.
  unfold unique_keys. intros E Hu.
  assert (Hs : forall h, Forall (fun d => NoDup d.*1) h <->
                         Forall (fun so => NoDup so.*1) (shape h)).
  { intros h. unfold shape. rewrite Forall_fmap. apply Forall_proper; [|done].
    intros d. cbn. by rewrite shape_obj_keys. }
  apply Hs. rewrite E. by apply Hs.
Qed.

Lemma unique_keys_at h l : unique_keys h -> NoDup (dict_at h l).*1.
Proof.
  unfold unique_keys, dict_at. intros Hu.
  destruct (h !! l) as [d|] eqn:E; cbn; [|constructor].
  eapply Forall_lookup_1 in Hu; eauto.
Qed.

Lemma setitem_shape h l i k v v' :
  unique_keys h -> dict_at h l !! i = Some (k, v) ->
  shape_val v' = shape_val v ->
  shape (<[l := dict_setitem k v' (dict_at h l)]> h) = shape h.
Proof.
  intros Hu Hi Hv.
  rewrite (dict_setitem_at _ i k v v') by (auto using unique_keys_at).
  unfold dict_at in *. destruct (h !! l) as [d|] eqn:E; cbn in *; [|done].
  unfold shape. rewrite list_fmap_insert. apply list_insert_id.
  rewrite list_lookup_fmap, E. cbn. f_equal.
  unfold shape_obj. rewrite list_fmap_insert. symmetry. apply list_insert_id.
  rewrite list_lookup_fmap, Hi. cbn. by rewrite Hv.
Qed.

Lemma setitem_same h l i k v :
  unique_keys h -> dict_at h l !! i = Some (k, v) ->
  <[l := dict_setitem k v (dict_at h l)]> h = h.
Proof.
  intros Hu Hi.
  rewrite (dict_setitem_at _ i k v v) by (auto using unique_keys_at).
  unfold dict_at in *. destruct (h !! l) as [d|] eqn:E; cbn in *; [|done].
  apply list_insert_id. rewrite E. f_equal. symmetry. by apply list_insert_id.
Qed.

End HeapFacts.

(** ** Facts on [mutate_value] and [mutate_config] *)

Section ValueFacts.

Context {R : Type} `{RandomSource R}.

Implicit Types (w : world R).

Lemma keeps_ret {A} (Q : A -> Prop) a : Q a -> keeps Q (ret (R := R) a).
Proof. intros HQ w. by exists a, w. Qed.

Lemma keeps_bind {A B} (Q1 : A -> Prop) (Q : B -> Prop) (m : M R A)
    (k : A -> M R B) :
  keeps Q1 m -> (forall a, Q1 a -> keeps Q (k a)) -> keeps Q (bind m k).
Proof.
  intros Hm Hk w. destruct (Hm w) as (a & w1 & E & HQ & Hh & Hf).
  destruct (Hk a HQ w1) as (b & w2 & E2 & HQ2 & Hh2 & Hf2).
  exists b, w2. unfold bind. rewrite E, E2. repeat split; congruence.
Qed.

Lemma keeps_weaken {A} (Q Q' : A -> Prop) (m : M R A) :
  keeps Q m -> (forall a, Q a -> Q' a) -> keeps Q' m.
Proof.
  intros Hm HQ w. destruct (Hm w) as (a & w1 & E & Ha & Hh & Hf).
  exists a, w1. auto.
Qed.

Lemma keeps_random : keeps (fun _ => True) random.
Proof.
  intros w. unfold random. destruct (rs_random (w_rng w)) as [u r].
  by exists u, (set_rng r w).
Qed.

Lemma keeps_randint a b : a <= b -> keeps (fun n => a <= n <= b) (randint a b).
Proof.
  intros Hab w. unfold randint.
  destruct (Z.ltb_spec b a) as [?|_]; [lia|].
  pose proof (rs_randint_range a b (w_rng w) Hab) as Hr.
  destruct (rs_randint a b (w_rng w)) as [n r].
  by exists n, (set_rng r w).
Qed.

Lemma keeps_uniform a b : keeps (fun _ => True) (uniform a b).
Proof.
  intros w. unfold uniform. destruct (rs_uniform a b (w_rng w)) as [u r].
  by exists u, (set_rng r w).
Qed.

Lemma keeps_choice c cs : keeps (fun _ => True) (choice (String c cs)).
Proof.
  intros w. unfold choice. destruct (rs_choice _ (w_rng w)) as [x r].
  by exists x, (set_rng r w).
Qed.

Lemma keeps_random_chars c cs n :
  keeps (fun _ => True) (random_chars (String c cs) n).
Proof.
  induction n as [|n IH]; cbn [random_chars].
  - by apply keeps_ret.
  - eapply keeps_bind; [apply keeps_choice | intros x _].
    eapply keeps_bind; [exact IH | intros rest _]. by apply keeps_ret.
Qed.

Lemma keeps_logging lvl msg :
  keeps (fun _ => True) (logging (R := R) lvl msg).
Proof. intros w. by exists tt, (emit (Log lvl msg) w). Qed.

(** [mutate_value] always returns, never a mapping for a leaf, and touches
    neither the object store nor the file system. *)
Lemma mutate_value_keeps v :
  keeps (fun v' => shape_val v' = shape_val v) (mutate_value v).
Proof.
  unfold mutate_value.
  destruct v as [|b|n|f|s|items|l]; cbn [isinstance_str isinstance_int
    isinstance_float isinstance_bool].
  - eapply keeps_bind; [apply keeps_logging | intros _ _]. by apply keeps_ret.
  - eapply keeps_bind; [by apply keeps_randint | intros k _]. by apply keeps_ret.
  - eapply keeps_bind; [by apply keeps_randint | intros k _]. by apply keeps_ret.
  - eapply keeps_bind; [apply keeps_uniform | intros u _]. by apply keeps_ret.
  - eapply keeps_bind; [apply keeps_random | intros u _].
    destruct (PyFloat.lt u PyFloat.half).
    + eapply keeps_bind; [by apply keeps_randint | intros k _].
      eapply keeps_bind; [apply keeps_random_chars | intros x _].
      by apply keeps_ret.
    + cbn [str_of]. destruct (Z.ltb_spec 2 (len s)) as [Hlen|_];
        [|by apply keeps_ret].
      eapply keeps_bind;
        [apply keeps_randint; Z.div_mod_to_equations; lia | intros k Hk; cbv beta in Hk].
      eapply keeps_bind;
        [apply keeps_randint; Z.div_mod_to_equations; lia | intros j _].
      by apply keeps_ret.
  - eapply keeps_bind; [apply keeps_logging | intros _ _]. by apply keeps_ret.
  - eapply keeps_bind; [apply keeps_logging | intros _ _]. by apply keeps_ret.
Qed.


(** *** Loops *)

(** A loop keeps an invariant its body keeps, and raises only what its body
    raises. *)
Lemma for_each_spec {A} (I : world R -> Prop) (E : exn -> Prop)
    (xs : list A) (body : A -> M R unit) :
  (forall x w, x ∈ xs -> I w ->
     I (body x w).2 /\
     match (body x w).1 with Ok _ => True | Raise e => E e end) ->
  forall w, I w ->
    I (for_each xs body w).2 /\
    match (for_each xs body w).1 with Ok _ => True | Raise e => E e end.
Proof.
  induction xs as [|x xs IH]; intros Hb w HI; cbn [for_each].
  - by split.
  - unfold bind. destruct (Hb x w) as [HI1 HE1]; [left | done |].
    destruct (body x w) as [[[]|e] w1]; cbn in *; [|by split].
    apply IH; [|done]. intros y w' Hy. apply Hb. by right.
Qed.

Lemma mutate_config_unfold depth l rate :
  mutate_config (S depth) (VDict l) rate =
  bind (dict_len l) (fun n =>
    bind (for_each (seq 0 n)
            (visit (fun v => mutate_config depth v rate) l n rate))
         (fun _ => ret (VDict l))).
Proof. reflexivity. Qed.

(** An item of a mapping, seen from a store of the same shape. *)
Lemma shape_item (h1 h2 : heap) (l i : nat) k v :
  shape h2 = shape h1 -> dict_at h1 l !! i = Some (k, v) ->
  exists v2, dict_at h2 l !! i = Some (k, v2) /\ shape_val v2 = shape_val v.
Proof.
  intros Hs Hi. apply shape_lookup in Hi.
  rewrite shape_dict_at, <- Hs, <- shape_dict_at in Hi.
  unfold shape_obj in Hi. rewrite list_lookup_fmap in Hi.
  destruct (dict_at h2 l !! i) as [[k2 v2]|]; [|done].
  cbn in Hi. injection Hi as -> Hv. by exists v2.
Qed.

Lemma shape_length (h1 h2 : heap) (l : nat) :
  shape h2 = shape h1 -> length (dict_at h2 l) = length (dict_at h1 l).
Proof.
  intros Hs.
  rewrite <- (length_fmap (fun kv => (kv.1, shape_val kv.2)) (dict_at h2 l)).
  rewrite <- (length_fmap (fun kv => (kv.1, shape_val kv.2)) (dict_at h1 l)).
  fold (shape_obj (dict_at h2 l)). fold (shape_obj (dict_at h1 l)).
  by rewrite !shape_dict_at, Hs.
Qed.

Lemma within_depth_child depth sh (l i : nat) k l' :
  default [] (sh !! l) !! i = Some (k, Some l') ->
  within_depth depth sh l' = false ->
  within_depth (S depth) sh l = false.
Proof.
  intros Hi Hc. cbn [within_depth]. apply not_true_is_false. intros Hall.
  rewrite forallb_forall in Hall.
  specialize (Hall (k, Some l')). cbn in Hall.
  rewrite Hall in Hc; [done|]. apply list_elem_of_In.
  by eapply list_elem_of_lookup_2.
Qed.

(** What [mutate_config] does on a mapping, whatever the rate: it keeps the
    shape of the store, the file system and the objects outside the tree,
    and it returns its argument unless the nesting exceeds the recursion
    depth. *)
Lemma mutate_config_spec depth l rate w :
  unique_keys (w_heap w) ->
  shape (w_heap (mutate_config depth (VDict l) rate w).2) = shape (w_heap w) /\
  w_fs (mutate_config depth (VDict l) rate w).2 = w_fs w /\
  ((mutate_config depth (VDict l) rate w).1 = Ok (VDict l) \/
   ((mutate_config depth (VDict l) rate w).1 = Raise recursion_error /\
    within_depth depth (shape (w_heap w)) l = false)) /\
  frame (shape (w_heap w)) l (w_heap w)
    (w_heap (mutate_config depth (VDict l) rate w).2).
Proof.
  revert l w. induction depth as [|depth IH]; intros l w Hu.
  { cbn. repeat split; try done. by right. }
  destruct (mutate_config (S depth) (VDict l) rate w) as [r w'] eqn:E.
  cbn [fst snd]. rewrite mutate_config_unfold in E.
  unfold bind at 1, dict_len in E. cbv beta iota in E.
  set (n := length (dict_at (w_heap w) l)) in *.
  set (sh := shape (w_heap w)) in *.
  set (body := visit _ l n rate) in *.
  destruct (for_each_spec
    (fun w1 => shape (w_heap w1) = sh /\ w_fs w1 = w_fs w /\
               frame sh l (w_heap w) (w_heap w1))
    (fun e => e = recursion_error /\ within_depth (S depth) sh l = false)
    (seq 0 n) body) with (w := w) as [(Hsh & Hfs & Hfr) Hres]; [|done|].
  - intros i w1 Hi (Hsh1 & Hfs1 & Hfr1).
    apply elem_of_seq in Hi as [_ Hi]. cbn in Hi.
    assert (Hu1 : unique_keys (w_heap w1)) by (by eapply unique_keys_shape).
    assert (Hn : length (dict_at (w_heap w1) l) = n) by (by apply shape_length).
    assert (Hset : forall (h : heap) k v, frame sh l (w_heap w) h ->
              frame sh l (w_heap w) (<[l := dict_setitem k v (dict_at h l)]> h)).
    { intros h k v Hh l0 Hl0. rewrite list_lookup_insert_ne; [by apply Hh|].
      intros ->. apply Hl0. constructor. }
    destruct (body i w1) as [ri wi] eqn:Eb. cbn [fst snd].
    subst body. unfold visit, bind at 1, next_item in Eb.
    rewrite Hn, Nat.eqb_refl in Eb.
    destruct (dict_at (w_heap w1) l !! i) as [[key value]|] eqn:Ei;
      [|apply lookup_ge_None in Ei; lia].
    destruct value as [|b|z|f|s|items|l']; cbn [isinstance_dict] in Eb.
    7: {
      unfold bind in Eb.
      assert (Hchild : default [] (sh !! l) !! i = Some (key, Some l')).
      { rewrite <- Hsh1, <- shape_dict_at. by apply shape_lookup in Ei. }
      destruct (IH l' w1 Hu1) as (Hsh2 & Hfs2 & Hr & Hfr2).
      assert (Hfr' : frame sh l (w_heap w)
                       (w_heap (mutate_config depth (VDict l') rate w1).2)).
      { intros l0 Hl0. rewrite Hfr2, Hfr1; [done..|].
        rewrite Hsh1. intros Hreach. apply Hl0. by econstructor. }
      destruct (mutate_config depth (VDict l') rate w1) as [[v'|e] w2];
        cbn [fst snd] in *.
      - destruct Hr as [[= ->]|[? _]]; [|done].
        destruct (shape_item (w_heap w1) (w_heap w2) l i key (VDict l'))
          as (v2 & Ei2 & Hv2); [done..|].
        injection Eb as <- <-. cbn. split; [|done].
        split; [|split; [congruence | by apply Hset]].
        fold (shape (<[l:=dict_setitem key (VDict l') (dict_at (w_heap w2) l)]>
                      (w_heap w2))).
        erewrite setitem_shape; [congruence| |done|done].
        eapply unique_keys_shape; [|exact Hu1]. done.
      - injection Eb as <- <-. split; [repeat split; first [congruence | done]|].
        destruct Hr as [?|[[= ->] Hd]]; [done|]. split; [done|].
        eapply within_depth_child; [done|by rewrite <- Hsh1].
    }
    all: unfold bind at 1 in Eb;
      destruct (keeps_random w1) as (u & w2 & Eu & _ & Hh2 & Hf2);
      rewrite Eu in Eb;
      destruct (PyFloat.lt u rate);
      [|injection Eb as <- <-; split; [repeat split|];
        first [done | congruence | by rewrite Hh2]];
      unfold bind in Eb;
      match type of Eb with context [mutate_value ?v w2] =>
        destruct (mutate_value_keeps v w2) as (v' & w3 & Ev & Hv & Hh3 & Hf3)
      end;
      rewrite Ev in Eb; injection Eb as <- <-;
      cbn; split; [|done]; rewrite Hh3, Hh2;
      split; [|split; [congruence | by apply Hset]];
      match goal with |- context [dict_setitem ?k ?v ?d] =>
        fold (shape (<[l:=dict_setitem k v d]> (w_heap w1)))
      end;
      (erewrite setitem_shape; [congruence| done | exact Ei | done]).
  - unfold bind in E.
    destruct (for_each (seq 0 n) body w) as [[[]|e] w1]; cbn in *;
      injection E as <- <-.
    + repeat split; try done. by left.
    + destruct Hres as [-> Hd]. repeat split; try done. by right.
Qed.

End ValueFacts.

(** ** The mutation engine: rates *)

Section Rates.

Context {R : Type} `{RandomSource R}.

Implicit Types (w : world R).

Lemma for_each_ext {A} (xs : list A) (b1 b2 : A -> M R unit) w :
  (forall x w', b1 x w' = b2 x w') -> for_each xs b1 w = for_each xs b2 w.
Proof.
  intros Hb. revert w. induction xs as [|x xs IH]; intros w; [done|].
  cbn [for_each]. unfold bind. rewrite Hb.
  destruct (b2 x w) as [[[]|e] w1]; [apply IH | done].
Qed.

Lemma set_heap_same w : set_heap (w_heap w) w = w.
Proof. by destruct w. Qed.

(** At rate [0.0] a call changes nothing but the state of the random
    source. *)
Lemma rate_zero_world depth l w :
  unique_keys (w_heap w) ->
  exists r, (mutate_config depth (VDict l) PyFloat.zero w).2 = set_rng r w.
Proof.
  revert l w. induction depth as [|depth IH]; intros l w Hu.
  { exists (w_rng w). by destruct w. }
  destruct (mutate_config (S depth) (VDict l) PyFloat.zero w) as [r w'] eqn:E.
  cbn [fst snd]. rewrite mutate_config_unfold in E.
  unfold bind at 1, dict_len in E. cbv beta iota in E.
  set (n := length (dict_at (w_heap w) l)) in *.
  set (body := visit _ l n PyFloat.zero) in *.
  destruct (for_each_spec (fun w1 => exists r1, w1 = set_rng r1 w)
              (fun _ => True) (seq 0 n) body) with (w := w) as [[r1 Hw1] _].
  - intros i w1 _ [r1 ->].
    destruct (body i (set_rng r1 w)) as [ri wi] eqn:Eb. cbn [fst snd].
    subst body. unfold visit, bind at 1, next_item in Eb.
    cbn [w_heap set_rng] in Eb.
    destruct (_ =? _)%nat;
      [|injection Eb as <- <-; split; [by exists r1 | done]].
    destruct (dict_at (w_heap w) l !! i) as [[key value]|] eqn:Ei;
      [|injection Eb as <- <-; split; [by exists r1 | done]].
    destruct value as [|b|z|f|s|items|l']; cbn [isinstance_dict] in Eb.
    7: {
      unfold bind in Eb.
      destruct (IH l' (set_rng r1 w) Hu) as [r2 Hw2].
      destruct (mutate_config_spec depth l' PyFloat.zero (set_rng r1 w) Hu)
        as (_ & _ & Hr & _).
      destruct (mutate_config depth (VDict l') PyFloat.zero (set_rng r1 w))
        as [[v'|e] w2]; cbn [fst snd] in *; subst w2.
      - destruct Hr as [[= ->]|[? _]]; [|done].
        injection Eb as <- <-. split; [|done]. exists r2.
        unfold set_heap. cbn. erewrite setitem_same; [done..|exact Ei].
      - injection Eb as <- <-. split; [by exists r2 | done].
    }
    all: unfold bind, random in Eb;
      pose proof (rs_random_range (w_rng (set_rng r1 w))) as [Hge _];
      destruct (rs_random (w_rng (set_rng r1 w))) as [u r2];
      cbn [fst] in Hge; rewrite (lt_zero_false u Hge) in Eb;
      injection Eb as <- <-; split; [by exists r2 | done].
  - by exists (w_rng w); destruct w.
  - subst. unfold bind in E.
    destruct (for_each (seq 0 n) body w) as [[[]|e] w1]; cbn in *;
      injection E as <- <-; by exists r1.
Qed.

Lemma bind_ext {A B} (m : M R A) (k1 k2 : A -> M R B) w :
  (forall a w', k1 a w' = k2 a w') -> bind m k1 w = bind m k2 w.
Proof. intros Hk. unfold bind. destruct (m w) as [[a|e] w1]; [apply Hk | done]. Qed.

Lemma bind_cong {A B} (m1 m2 : M R A) (k : A -> M R B) w :
  m1 w = m2 w -> bind m1 k w = bind m2 k w.
Proof. intros Hm. unfold bind. by rewrite Hm. Qed.

Lemma mutate_all_unfold depth l :
  mutate_all (S depth) (VDict l) =
  bind (dict_len l) (fun n =>
    bind (for_each (seq 0 n) (visit_all (fun v => mutate_all depth v) l n))
         (fun _ => ret (VDict l))).
Proof. reflexivity. Qed.

(** At a rate of [1.0] or more every trial selects its leaf. *)
Lemma rate_ge_one_all depth config rate w :
  PyFloat.le PyFloat.one rate = true ->
  mutate_config depth config rate w = mutate_all depth config w.
Proof.
  intros Hrate. revert config w.
  induction depth as [|depth IH]; intros config w; [reflexivity|].
  destruct config as [| | | | | |l]; try reflexivity.
  rewrite mutate_config_unfold, mutate_all_unfold.
  apply bind_ext. intros n w1. apply bind_cong, for_each_ext.
  intros i w2. unfold visit, visit_all. apply bind_ext.
  intros [key value] w3. destruct (isinstance_dict value).
  - apply bind_cong, IH.
  - unfold bind at 1 3, random.
    pose proof (rs_random_range (w_rng w3)) as [_ Hlt].
    destruct (rs_random (w_rng w3)) as [u r3]. cbn [fst] in Hlt.
    by rewrite (lt_one_le u rate Hlt Hrate).
Qed.

End Rates.

(** ** Claims on the mutation engine *)

Section EngineClaims.

Context {R : Type} `{RandomSource R}.

Implicit Types (w : world R).

(** On a boolean [mutate_value] takes the integer branch: the test
    [isinstance(value, int)] comes first and holds for [True] and [False].
    The result is the integer [int(b) + delta], never the negation. *)
Lemma mutate_value_bool_is_int_branch (b : bool) w :
  mutate_value (VBool b) w =
  (Ok (VInt (Z.b2z b + (rs_randint (-5) 5 (w_rng w)).1)),
   set_rng (rs_randint (-5) 5 (w_rng w)).2 w).
Proof.
  unfold mutate_value. cbn [isinstance_str isinstance_int].
  unfold bind, randint. cbn [Z.ltb Z.compare].
  by destruct (rs_randint (-5) 5 (w_rng w)).
Qed.

(** C4: a value that is neither [str], [int], [float] nor [bool] comes back
    unchanged from [mutate_value], with nothing drawn from the random source
    and one WARNING record naming its type appended to the log. *)
Theorem mutate_value_unsupported_passthrough (v : val) w :
  isinstance_str v = false -> isinstance_int v = false ->
  isinstance_float v = false -> isinstance_bool v = false ->
  mutate_value v w =
  (Ok v,
   emit (Log WARNING ("Unsupported data type for mutation: " +:+
                      type_repr v +:+ ". Returning original value.")) w).
Proof.
  intros Hs Hi Hf Hb. unfold mutate_value. by rewrite Hs, Hi, Hf, Hb.
Qed.

(** C2: at rate [0.0], on a store whose mappings have distinct keys and a
    tree the recursion depth can walk, [mutate_config] returns its argument
    and leaves the whole world as it was, the state of the random source
    apart: no draw selects a leaf. *)
Theorem mutate_config_rate_zero_identity depth l w :
  unique_keys (w_heap w) ->
  within_depth depth (shape (w_heap w)) l = true ->
  exists r,
    mutate_config depth (VDict l) PyFloat.zero w = (Ok (VDict l), set_rng r w).
Proof.
  intros Hu Hd.
  destruct (rate_zero_world depth l w Hu) as [r Hw]. exists r.
  destruct (mutate_config_spec depth l PyFloat.zero w Hu) as (_ & _ & Hr & _).
  destruct (mutate_config depth (VDict l) PyFloat.zero w) as [res w'].
  cbn [fst snd] in *. subst w'.
  destruct Hr as [->|[_ Hf]]; [done | congruence].
Qed.

(** C3: whatever the rate, [mutate_config] leaves the key set and the
    nesting of every mapping as they were, and on a tree the recursion depth
    can walk it returns the mapping it was given. *)
Theorem mutate_config_preserves_shape depth l rate w :
  unique_keys (w_heap w) ->
  shape (w_heap (mutate_config depth (VDict l) rate w).2) = shape (w_heap w) /\
  (within_depth depth (shape (w_heap w)) l = true ->
   (mutate_config depth (VDict l) rate w).1 = Ok (VDict l)).
Proof.
  intros Hu.
  destruct (mutate_config_spec depth l rate w Hu) as (Hs & _ & Hr & _).
  split; [done|]. intros Hd. destruct Hr as [->|[_ Hf]]; [done | congruence].
Qed.

(** C9, as amended: [mutate_config] updates the caller's tree in place and
    returns the caller's own reference.  What it leaves unmodified is the
    key set and nesting of every mapping, and every object that is not part
    of the tree. *)
Theorem mutate_config_in_place depth l rate w :
  unique_keys (w_heap w) ->
  within_depth depth (shape (w_heap w)) l = true ->
  (mutate_config depth (VDict l) rate w).1 = Ok (VDict l) /\
  shape (w_heap (mutate_config depth (VDict l) rate w).2) = shape (w_heap w) /\
  (forall l0, ~ reachable (shape (w_heap w)) l l0 ->
     w_heap (mutate_config depth (VDict l) rate w).2 !! l0 = w_heap w !! l0).
Proof.
  intros Hu Hd.
  destruct (mutate_config_spec depth l rate w Hu) as (Hs & _ & Hr & Hfr).
  split; [|by split]. destruct Hr as [->|[_ Hf]]; [done | congruence].
Qed.

End EngineClaims.

(** ** Facts on [str.format] *)

Section FormatFacts.

Import Format.

Lemma append_cons (c : ascii) (s t : string) :
  String c s +:+ t = String c (s +:+ t).
Proof. reflexivity. Qed.

Lemma append_nil_l (s : string) : "" +:+ s = s.
Proof. reflexivity. Qed.

Lemma append_assoc (a b c : string) : (a +:+ b) +:+ c = a +:+ (b +:+ c).
Proof.
  induction a as [|x a IH]; [done|]. rewrite !append_cons. by rewrite IH.
Qed.

Lemma append_nil_r (a : string) : a +:+ "" = a.
Proof. induction a as [|x a IH]; [done|]. rewrite append_cons. by rewrite IH. Qed.

(** Text without braces is copied to the output. *)
Lemma scan_text arg out auto (s rest : string) :
  brace_free s = true ->
  scan arg (State Text out auto) (s +:+ rest) =
  scan arg (State Text (out +:+ s) auto) rest.
Proof.
  revert out. induction s as [|c s IH]; intros out Hs.
  - by rewrite append_nil_l, append_nil_r.
  - cbn in Hs. apply andb_true_iff in Hs as [Hc Hs].
    apply andb_true_iff in Hc as [Ho Hcl].
    apply negb_true_iff in Ho, Hcl.
    rewrite append_cons. cbn [scan]. unfold step. cbn [st_mode st_out st_auto].
    rewrite Ho, Hcl, IH by done. unfold push.
    by rewrite append_assoc, append_cons, append_nil_l.
Qed.



End FormatFacts.

(** ** Facts on the orchestrator *)

Section OrchestratorFacts.

Context {R : Type} `{RandomSource R} (env : Env).

Implicit Types (w : world R).

Lemma emits_os_path_exists P path : emits P (os_path_exists (R := R) path).
Proof. apply emits_silent. reflexivity. Qed.

Lemma emits_open_read P path :
  P (OpenRead path) = true -> emits P (open_read (R := R) env path).
Proof.
  intros HP w. unfold open_read.
  destruct (open_read_error env _ _); [by apply trace_ext_emit|].
  destruct (w_fs w !! path) as [[]|]; by apply trace_ext_emit.
Qed.

Lemma emits_open_write P path :
  P (OpenWrite path) = true -> emits P (open_write (R := R) env path).
Proof.
  intros HP w. unfold open_write.
  destruct (open_write_error env _ _); [by apply trace_ext_emit|].
  destruct (w_fs w !! path) as [[]|]; by apply trace_ext_emit.
Qed.

Lemma emits_parse P parser text : emits P (parse (R := R) parser text).
Proof.
  apply emits_silent. intros w. unfold parse.
  by destruct (parser text) as [[h v]|e].
Qed.

Lemma emits_dump P dumper config path :
  emits P (dump (R := R) dumper config path).
Proof.
  apply emits_silent. intros w. unfold dump.
  by destruct (dumper (w_heap w) config) as [text [e|]].
Qed.

Lemma emits_run P cmd : P (Run cmd) = true -> emits P (run (R := R) env cmd).
Proof.
  intros HP w. unfold run.
  destruct (subprocess_run env cmd (w_fs w)) as [r fs'].
  exists [Run cmd]. cbn. by rewrite HP.
Qed.

Lemma emits_load_config path : emits not_test_run (load_config (R := R) env path).
Proof.
  unfold load_config.
  repeat first
    [ apply emits_os_path_exists | apply emits_open_read; reflexivity
    | apply emits_parse | emits_step ].
Qed.

Lemma emits_save_config config path :
  emits not_test_run (save_config (R := R) env config path).
Proof.
  unfold save_config.
  repeat first
    [ apply emits_open_write; reflexivity | apply emits_dump | emits_step ].
Qed.

Lemma emits_lint_config path :
  emits not_test_run (lint_config (R := R) env path).
Proof.
  unfold lint_config, lint_with.
  repeat first [ apply emits_run; reflexivity | emits_step ].
Qed.

Lemma emits_prepare args : emits not_test_run (prepare env args).
Proof.
  unfold prepare.
  repeat first
    [ apply emits_load_config | apply emits_save_config
    | apply emits_mutate_config; reflexivity | emits_step ].
Qed.

(** A failing linter makes [lint_config] return [False]. *)
Lemma lint_config_false path w :
  lint_fails env path (w_fs w) -> (lint_config env path w).1 = Ok false.
Proof.
  intros (tool & Htool & Hrun). unfold linter_of in Htool.
  unfold lint_config, try_except.
  destruct (is_yaml path); [|destruct (is_json path); [|done]];
    injection Htool as <-; unfold lint_with, bind, run;
    destruct (subprocess_run env _ (w_fs w)) as [[p|e] fs']; cbn in Hrun |- *.
  all: try (apply Z.eqb_neq in Hrun; by rewrite Hrun).
  all: by destruct (is_FileNotFoundError e).
Qed.

End OrchestratorFacts.

(** ** Claims on the orchestrator *)

Section OrchestratorClaims.

Context {R : Type} `{RandomSource R} (env : Env).

Implicit Types (w : world R).

(** C5: when linting is requested, stages 1 to 3 have completed, and the
    linter exits with a nonzero code or cannot be started, [main] returns
    exit code 1 and the run contains no invocation of the test command. *)
Theorem lint_failure_skips_test args w out w1 :
  lint args = true ->
  prepare env args w = (Ok out, w1) ->
  lint_fails env out (w_fs w1) ->
  (main env args w).1 = Ok 1 /\
  exists evs, w_trace (main env args w).2 = w_trace w ++ evs /\
              forallb not_test_run evs = true.
Proof.
  intros Hlint Hprep Hfail.
  pose proof (emits_prepare env args w) as T1. rewrite Hprep in T1.
  pose proof (emits_lint_config env out w1) as T2.
  pose proof (lint_config_false env out w1 Hfail) as Hres.
  unfold main, try_except, bind. rewrite Hprep.
  unfold lint_gate. rewrite Hlint. unfold bind.
  destruct (lint_config env out w1) as [r w2]. cbn [fst snd] in *. subst r.
  cbn [negb logging ret fst snd]. split; [done|].
  change (trace_ext not_test_run w
            (emit (Log ERROR "Linting failed.  Aborting test.") w2)).
  eapply trace_ext_trans; [exact T1|].
  eapply trace_ext_trans; [exact T2|]. by apply trace_ext_emit.
Qed.

(** C6: when the configuration file is absent, [main] returns exit code 1
    and the world is as before but for one ERROR record in the log: no file
    is opened, created or overwritten, and the file system is unchanged. *)
Theorem missing_config_file_fails_without_writing args w :
  w_fs w !! config_file args = None ->
  main env args w =
  (Ok 1,
   emit (Log ERROR ("File not found: " +:+
                    "Configuration file not found: " +:+ config_file args)) w).
Proof.
  intros Hnone. unfold main, try_except, bind, prepare, bind, load_config, bind,
    os_path_exists. rewrite Hnone. reflexivity.
Qed.


(** C8, amended: a failure of the invocation mechanism and a process that
    ran and failed are told apart by the log of [run_test_command], and by
    nothing else.  After an exception the function returns [-1] and the log
    ends with the ERROR record of the exception.  After a process that ran
    it returns the return code, the log ends with the INFO record of the
    return code and holds no record of an invocation error.  An exit status
    is never [-1] (the return code of a child ended by signal 1 is).  [main]
    reports both with the same record and the same exit code 1. *)
Theorem invocation_error_is_logged_apart args template out cmd w e
    (wx : world R) p :
  test_command args = Some template ->
  truthy (test_command args) = true ->
  Format.format (str_format_ext env) template out = Ok cmd ->
  (subprocess_run env (Shell cmd) (w_fs w)).1 = Raise e ->
  (subprocess_run env (Shell cmd) (w_fs wx)).1 = Ok p ->
  returncode p <> 0 ->
  run_test_command env out template w =
    (Ok (-1),
     emit (Log ERROR ("Error executing test command: " +:+ exn_str e))
       (set_fs (subprocess_run env (Shell cmd) (w_fs w)).2
          (emit (Run (Shell cmd))
             (emit (Log INFO ("Executing test command: " +:+ cmd)) w)))) /\
  (exists evs,
     run_test_command env out template wx =
       (Ok (returncode p),
        World (w_heap wx) (w_rng wx)
          (subprocess_run env (Shell cmd) (w_fs wx)).2
          (w_trace wx ++ evs ++
           [Log INFO ("Command return code: " +:+ pretty (returncode p))])) /\
     forallb not_invocation_error evs = true) /\
  (forall c, status p = Exited c -> returncode p <> -1) /\
  test_stage env args out w =
    (Ok 1, emit (Log ERROR "Test command failed.")
             (run_test_command env out template w).2) /\
  test_stage env args out wx =
    (Ok 1, emit (Log ERROR "Test command failed.")
             (run_test_command env out template wx).2).
Proof.
  intros Hcmd Htruthy Hfmt Hraise Hran Hne.
  assert (Hw : run_test_command env out template w =
               (Ok (-1),
                emit (Log ERROR ("Error executing test command: " +:+ exn_str e))
                  (set_fs (subprocess_run env (Shell cmd) (w_fs w)).2
                     (emit (Run (Shell cmd))
                        (emit (Log INFO ("Executing test command: " +:+ cmd)) w))))).
  { unfold run_test_command, try_except, bind. rewrite Hfmt.
    unfold logging at 1, run. cbn [w_fs emit].
    destruct (subprocess_run env (Shell cmd) (w_fs w)) as [r fs'].
    cbn [fst] in Hraise. by subst r. }
  assert (Hwx : exists evs,
     run_test_command env out template wx =
       (Ok (returncode p),
        World (w_heap wx) (w_rng wx)
          (subprocess_run env (Shell cmd) (w_fs wx)).2
          (w_trace wx ++ evs ++
           [Log INFO ("Command return code: " +:+ pretty (returncode p))])) /\
     forallb not_invocation_error evs = true).
  { unfold run_test_command, try_except, bind. rewrite Hfmt.
    unfold logging at 1, run. cbn [w_fs emit].
    destruct (subprocess_run env (Shell cmd) (w_fs wx)) as [r fs'].
    cbn [fst] in Hran. subst r. cbn [snd].
    destruct (negb (String.eqb (stderr p) "")).
    - exists [Log INFO ("Executing test command: " +:+ cmd); Run (Shell cmd);
              Log INFO ("Command output:" +:+ nl +:+ stdout p);
              Log ERROR ("Command error:" +:+ nl +:+ stderr p)].
      split; [|reflexivity].
      destruct wx. cbn. unfold emit, set_fs. cbn. by rewrite <- !app_assoc.
    - exists [Log INFO ("Executing test command: " +:+ cmd); Run (Shell cmd);
              Log INFO ("Command output:" +:+ nl +:+ stdout p)].
      split; [|reflexivity].
      destruct wx. cbn. unfold emit, set_fs. cbn. by rewrite <- !app_assoc. }
  split; [exact Hw|]. split; [exact Hwx|]. split.
  { intros c Hst. unfold returncode. rewrite Hst. cbn [returncode_of]. lia. }
  destruct Hwx as (evs & Hwx & _).
  unfold test_stage. rewrite Htruthy, Hcmd.
  change (default "" (Some template)) with template. unfold bind.
  rewrite Hw, Hwx. cbn [fst snd].
  apply Z.eqb_neq in Hne. by rewrite Hne.
Qed.

(** C10: a rate of [1.0] or more selects every leaf: [mutate_config] is the
    mutator that hands every value that is not a nested mapping to
    [mutate_value].  Nothing rejects such a rate: [main] runs as it does
    with rate [1.0]. *)
Theorem rate_ge_one_selects_every_leaf rate :
  PyFloat.le PyFloat.one rate = true ->
  (forall depth config w,
     mutate_config depth config rate w = mutate_all depth config w) /\
  (forall args w,
     mutation_rate args = rate ->
     main env args w = main env (set_rate PyFloat.one args) w).
Proof.
  intros Hrate. split.
  - intros depth config w. by apply rate_ge_one_all.
  - intros args w <-. unfold main, try_except.
    assert (Hp : prepare env args w = prepare env (set_rate PyFloat.one args) w).
    { unfold prepare. apply bind_ext. intros config w1. apply bind_cong.
      cbn [mutation_rate set_rate].
      by rewrite !rate_ge_one_all. }
    unfold bind. by rewrite Hp.
Qed.

End OrchestratorClaims.

(** ** The claims at sample inputs *)

Section Samples.

Import Sample.

(** C1: [mutate_value(True)] with the draw [randint(-5, 5) = 3] returns the
    integer [4], not [False]: the boolean branch of the source is never
    reached, because the integer test comes first and [bool] is a subclass of
    [int]. *)
Theorem mutate_value_true_returns_int :
  mutate_value (VBool true) (World [] [Scripted.DInt 3] ∅ []) =
  (Ok (VInt 4), World [] [] ∅ []).
Proof. reflexivity. Qed.

(** C9, as stated, fails: after [mutate_config] at rate [1.0] the caller's
    mapping holds [port: 5] where it held [port: 3]. *)
Lemma mutate_config_modifies_caller_tree :
  w_heap (mutate_config 1 (VDict 0%nat) PyFloat.one small).2 <> w_heap small /\
  dict_at (w_heap (mutate_config 1 (VDict 0%nat) PyFloat.one small).2) 0 =
    [("port", VInt 5)].
Proof. split; [discriminate | reflexivity]. Qed.


(** C8, as stated, fails: with a shell that cannot be started and with a
    shell that ran and was ended by signal 1, [run_test_command] returns the
    same value [-1], and [main] ends both runs with the same record and the
    same exit code. *)
Lemma invocation_error_conflated_with_return_code :
  (subprocess_run Sample2.env_hangup (Shell "my_app --config out.yaml")
     (w_fs start)).1 =
    Raise (Exn FileNotFoundError
             "[Errno 2] No such file or directory: '/bin/sh'") /\
  (subprocess_run Sample2.env_hangup (Shell "my_app --config out.yaml")
     (w_fs start_sh)).1 = Ok (Completed (Signaled 1) "" "") /\
  (run_test_command Sample2.env_hangup "out.yaml" "my_app --config {}"
     start).1 = Ok (-1) /\
  (run_test_command Sample2.env_hangup "out.yaml" "my_app --config {}"
     start_sh).1 = Ok (-1) /\
  (main Sample2.env_hangup Sample2.args_test start).1 = Ok 1 /\
  (main Sample2.env_hangup Sample2.args_test start_sh).1 = Ok 1 /\
  last (w_trace (main Sample2.env_hangup Sample2.args_test start).2) =
    Some (Log ERROR "Test command failed.") /\
  last (w_trace (main Sample2.env_hangup Sample2.args_test start_sh).2) =
    Some (Log ERROR "Test command failed.").
Proof. repeat split; vm_compute; reflexivity. Qed.

Lemma mutate_config_rate_zero_identity_witness :
  unique_keys (w_heap loaded) /\
  within_depth 2 (shape (w_heap loaded)) 0 = true /\
  exists r, mutate_config 2 (VDict 0%nat) PyFloat.zero loaded =
            (Ok (VDict 0%nat), set_rng r loaded).
Proof.
  assert (Hu : unique_keys (w_heap loaded))
    by (apply (bool_decide_unpack _); vm_compute; exact I).
  split; [exact Hu|]. split; [reflexivity|].
  apply (mutate_config_rate_zero_identity 2 0%nat loaded Hu). reflexivity.
Defined.

Lemma mutate_config_preserves_shape_witness :
  unique_keys (w_heap loaded) /\
  shape (w_heap (mutate_config 2 (VDict 0%nat) two loaded).2) =
    shape (w_heap loaded) /\
  (mutate_config 2 (VDict 0%nat) two loaded).1 = Ok (VDict 0%nat).
Proof.
  assert (Hu : unique_keys (w_heap loaded))
    by (apply (bool_decide_unpack _); vm_compute; exact I).
  split; [exact Hu|].
  destruct (mutate_config_preserves_shape 2 0%nat two loaded Hu) as [Hs Hr].
  split; [exact Hs | apply Hr; reflexivity].
Defined.

Lemma mutate_config_in_place_witness :
  unique_keys (w_heap loaded) /\
  within_depth 2 (shape (w_heap loaded)) 0 = true /\
  (mutate_config 2 (VDict 0%nat) two loaded).1 = Ok (VDict 0%nat) /\
  shape (w_heap (mutate_config 2 (VDict 0%nat) two loaded).2) =
    shape (w_heap loaded) /\
  (forall l0, ~ reachable (shape (w_heap loaded)) 0%nat l0 ->
     w_heap (mutate_config 2 (VDict 0%nat) two loaded).2 !! l0 =
     w_heap loaded !! l0).
Proof.
  assert (Hu : unique_keys (w_heap loaded))
    by (apply (bool_decide_unpack _); vm_compute; exact I).
  split; [exact Hu|]. split; [reflexivity|].
  apply (mutate_config_in_place 2 0%nat two loaded Hu). reflexivity.
Defined.

Lemma mutate_value_unsupported_passthrough_witness :
  mutate_value (VList [VStr "a"; VStr "b"]) loaded =
  (Ok (VList [VStr "a"; VStr "b"]),
   emit (Log WARNING ("Unsupported data type for mutation: " +:+
                      "<class 'list'>" +:+ ". Returning original value."))
        loaded).
Proof.
  apply (mutate_value_unsupported_passthrough (VList [VStr "a"; VStr "b"]) loaded);
    reflexivity.
Defined.

Lemma lint_failure_skips_test_witness :
  lint args = true /\
  prepare env args start = (Ok "out.yaml", (prepare env args start).2) /\
  lint_fails env "out.yaml" (w_fs (prepare env args start).2) /\
  (main env args start).1 = Ok 1 /\
  exists evs, w_trace (main env args start).2 = w_trace start ++ evs /\
              forallb not_test_run evs = true.
Proof.
  assert (Hp : prepare env args start = (Ok "out.yaml", (prepare env args start).2))
    by (vm_compute; reflexivity).
  assert (Hf : lint_fails env "out.yaml" (w_fs (prepare env args start).2))
    by (exists "yamllint"; split; [reflexivity | vm_compute; discriminate]).
  split; [reflexivity|]. split; [exact Hp|]. split; [exact Hf|].
  apply (lint_failure_skips_test env args start "out.yaml"
           (prepare env args start).2); [reflexivity | exact Hp | exact Hf].
Defined.

Lemma missing_config_file_fails_without_writing_witness :
  w_fs empty !! config_file args = None /\
  main env args empty =
  (Ok 1,
   emit (Log ERROR ("File not found: " +:+
                    "Configuration file not found: " +:+ config_file args))
        empty).
Proof.
  split; [reflexivity|].
  apply (missing_config_file_fails_without_writing env args empty). reflexivity.
Defined.


Lemma invocation_error_is_logged_apart_witness :
  returncode (Completed (Exited 3) "" "boom") <> 0 /\
  run_test_command env "out.yaml" "my_app --config {}" start =
    (Ok (-1),
     emit (Log ERROR ("Error executing test command: " +:+
                      "No such file or directory: '/bin/sh'"))
       (set_fs (subprocess_run env (Shell "my_app --config out.yaml")
                  (w_fs start)).2
          (emit (Run (Shell "my_app --config out.yaml"))
             (emit (Log INFO ("Executing test command: " +:+
                              "my_app --config out.yaml")) start)))) /\
  (exists evs,
     run_test_command env "out.yaml" "my_app --config {}" start_sh =
       (Ok 3,
        World (w_heap start_sh) (w_rng start_sh)
          (subprocess_run env (Shell "my_app --config out.yaml")
             (w_fs start_sh)).2
          (w_trace start_sh ++ evs ++
           [Log INFO ("Command return code: " +:+ pretty 3)])) /\
     forallb not_invocation_error evs = true) /\
  (forall c, Exited 3 = Exited c -> 3 <> -1) /\
  test_stage env args "out.yaml" start =
    (Ok 1, emit (Log ERROR "Test command failed.")
             (run_test_command env "out.yaml" "my_app --config {}" start).2) /\
  test_stage env args "out.yaml" start_sh =
    (Ok 1, emit (Log ERROR "Test command failed.")
             (run_test_command env "out.yaml" "my_app --config {}" start_sh).2).
Proof.
  split; [discriminate|].
  apply (invocation_error_is_logged_apart env args "my_app --config {}"
           "out.yaml" "my_app --config out.yaml" start
           (Exn FileNotFoundError "No such file or directory: '/bin/sh'")
           start_sh (Completed (Exited 3) "" "boom"));
    [reflexivity | reflexivity | reflexivity | reflexivity | reflexivity
    | discriminate].
Defined.

Lemma rate_ge_one_selects_every_leaf_witness :
  PyFloat.le PyFloat.one two = true /\
  (forall depth config (w : world Scripted.script),
     mutate_config depth config two w = mutate_all depth config w) /\
  (forall args (w : world Scripted.script),
     mutation_rate args = two ->
     main env args w = main env (set_rate PyFloat.one args) w).
Proof.
  split; [reflexivity|].
  apply (rate_ge_one_selects_every_leaf env two). reflexivity.
Defined.

End Samples.

(** ** More on strings *)

Section StringFacts.

Lemma split_chars_app (n : nat) (b : bool) (s : string) :
  s = (split_chars n b s).1 +:+ (split_chars n b s).2.
Proof.
  revert n b. induction s as [|c s IH]; intros n b; [done|].
  cbn [split_chars]. destruct (b && is_continuation c).
  - specialize (IH n true). destruct (split_chars n true s) as [x y].
    cbn [fst snd] in *. rewrite append_cons. by f_equal.
  - destruct n as [|n]; [done|].
    specialize (IH n true). destruct (split_chars n true s) as [x y].
    cbn [fst snd] in *. rewrite append_cons. by f_equal.
Qed.

Lemma count_take (n : nat) (b : bool) (s : string) :
  count_chars b (split_chars n b s).1 = Nat.min n (count_chars b s).
Proof.
  revert n b. induction s as [|c s IH]; intros n b.
  - cbn. by rewrite Nat.min_0_r.
  - cbn [split_chars count_chars]. destruct (b && is_continuation c) eqn:E.
    + specialize (IH n true). destruct (split_chars n true s) as [x y].
      cbn [fst] in *. cbn [count_chars]. by rewrite E.
    + destruct n as [|n]; [done|].
      specialize (IH n true). destruct (split_chars n true s) as [x y].
      cbn [fst] in *. cbn [count_chars]. rewrite E, IH. done.
Qed.

Lemma count_drop (n : nat) (b : bool) (s : string) :
  count_chars false (split_chars n b s).2 = (count_chars b s - n)%nat.
Proof.
  revert n b. induction s as [|c s IH]; intros n b; [done|].
  cbn [split_chars count_chars]. destruct (b && is_continuation c) eqn:E.
  - specialize (IH n true). by destruct (split_chars n true s) as [x y].
  - destruct n as [|n]; [by rewrite Nat.sub_0_r|].
    specialize (IH n true). by destruct (split_chars n true s) as [x y].
Qed.

Lemma split_chars_start (k : nat) (b : bool) (c : ascii) (s : string) :
  b && is_continuation c = false ->
  split_chars k b (String c s) = split_chars k false (String c s).
Proof. intros E. cbn [split_chars]. by rewrite E. Qed.

Lemma drop_drop (i k : nat) (b : bool) (s : string) :
  (split_chars k false (split_chars i b s).2).2 = (split_chars (i + k) b s).2.
Proof.
  revert i b. induction s as [|c s IH]; intros i b; [done|].
  destruct (b && is_continuation c) eqn:E.
  - cbn [split_chars]. rewrite E. specialize (IH i true).
    by destruct (split_chars i true s), (split_chars (i + k) true s).
  - destruct i as [|i].
    + assert (Hl : (split_chars 0 b (String c s)).2 = String c s)
        by (cbn [split_chars]; by rewrite E).
      rewrite Hl. cbn [Nat.add]. by rewrite (split_chars_start k b c s E).
    + cbn [split_chars Nat.add]. rewrite E. specialize (IH i true).
      by destruct (split_chars i true s), (split_chars (i + k) true s).
Qed.

(** Cutting [k] characters out of a string after the first [i]. *)
Lemma chars_three (s : string) (i k : nat) :
  (i + k <= count_chars false s)%nat ->
  s = take_chars i s +:+ take_chars k (drop_chars i s) +:+ drop_chars (i + k) s /\
  count_chars false (take_chars k (drop_chars i s)) = k.
Proof.
  intros Hlen. unfold take_chars, drop_chars. split.
  - rewrite <- drop_drop. rewrite <- split_chars_app. apply split_chars_app.
  - rewrite count_take, count_drop. lia.
Qed.

(** Text without continuation bytes has one character per byte. *)
Lemma count_chars_plain (b : bool) (s : string) :
  forallb (fun c => negb (is_continuation c)) (list_ascii_of_string s) = true ->
  count_chars b s = String.length s.
Proof.
  revert b. induction s as [|c s IH]; intros b Hs; [done|].
  cbn in Hs. apply andb_true_iff in Hs as [Hc Hs]. apply negb_true_iff in Hc.
  cbn [count_chars String.length]. rewrite Hc, andb_false_r. by rewrite IH.
Qed.

End StringFacts.

(** ** More on [mutate_value] *)

Section ValueExtras.

Context {R : Type} `{RandomSource R}.

Implicit Types (w : world R).

Lemma random_chars_spec c cs n w :
  exists str w', random_chars (String c cs) n w = (Ok str, w') /\
    String.length str = n /\ drawn_from (String c cs) str.
Proof.
  revert w. induction n as [|n IH]; intros w; cbn [random_chars].
  - exists "", w. repeat split. by intros x [].
  - unfold bind at 1, choice.
    pose proof (rs_choice_elem (String c cs) (w_rng w) ltac:(done)) as Hc.
    destruct (rs_choice (String c cs) (w_rng w)) as [x r]. cbn [fst] in Hc.
    unfold bind at 1.
    destruct (IH (set_rng r w)) as (str & w' & -> & Hlen & Hin).
    exists (String x str), w'. cbn. repeat split; [by rewrite Hlen|].
    intros y [<-|Hy]; [done | by apply Hin].
Qed.

(** The append branch of the string strategy: when the first draw is below
    0.5 the result is the string followed by one to five characters of
    [a-z0-9]. *)
Theorem mutate_value_str_appends s w :
  PyFloat.lt (rs_random (w_rng w)).1 PyFloat.half = true ->
  exists suffix w',
    mutate_value (VStr s) w = (Ok (VStr (s +:+ suffix)), w') /\
    1 <= len suffix <= 5 /\ drawn_from chars suffix.
Proof.
  intros Hlt. unfold mutate_value. cbn [isinstance_str str_of].
  unfold bind at 1, random.
  destruct (rs_random (w_rng w)) as [u r]. cbn [fst] in Hlt. rewrite Hlt.
  unfold bind at 1.
  destruct (keeps_randint 1 5 ltac:(lia) (set_rng r w))
    as (k & w1 & -> & Hk & _ & _).
  unfold bind at 1.
  destruct (random_chars_spec "a" "bcdefghijklmnopqrstuvwxyz0123456789"
              (Z.to_nat k) w1) as (str & w2 & E & Hlen & Hin).
  change (String "a" "bcdefghijklmnopqrstuvwxyz0123456789") with chars in *.
  rewrite E. exists str, w2. split; [done|]. split; [|done].
  unfold len. rewrite count_chars_plain, Hlen; [lia|].
  apply forallb_forall. intros x Hx. apply Hin in Hx.
  assert (Hall : forallb (fun c => negb (is_continuation c))
                   (list_ascii_of_string chars) = true) by reflexivity.
  rewrite forallb_forall in Hall. by apply Hall.
Qed.

(** The delete branch on a string of more than two characters: one
    contiguous span of at least one character and at most half the string is
    cut out, on character boundaries. *)
Theorem mutate_value_str_deletes_span s w :
  PyFloat.lt (rs_random (w_rng w)).1 PyFloat.half = false ->
  2 < len s ->
  exists before span after w',
    mutate_value (VStr s) w = (Ok (VStr (before +:+ after)), w') /\
    s = before +:+ span +:+ after /\
    1 <= len span <= len s / 2 /\
    len before + len span + len after = len s.
Proof.
  intros Hge Hlen. unfold mutate_value. cbn [isinstance_str str_of].
  unfold bind at 1, random.
  destruct (rs_random (w_rng w)) as [u r]. cbn [fst] in Hge. rewrite Hge.
  apply Z.ltb_lt in Hlen as Hb. rewrite Hb.
  unfold bind at 1.
  destruct (keeps_randint 1 (len s / 2) ltac:(Z.div_mod_to_equations; lia)
              (set_rng r w)) as (n & w1 & -> & Hn & _ & _).
  unfold bind at 1.
  destruct (keeps_randint 0 (len s - n) ltac:(Z.div_mod_to_equations; lia) w1)
    as (i & w2 & -> & Hi & _ & _).
  cbv beta in Hn, Hi.
  assert (Hin : (Z.to_nat i + Z.to_nat n <= count_chars false s)%nat)
    by (unfold len in *; Z.div_mod_to_equations; lia).
  destruct (chars_three s (Z.to_nat i) (Z.to_nat n) Hin) as [Hsplit Hspan].
  exists (take_chars (Z.to_nat i) s),
    (take_chars (Z.to_nat n) (drop_chars (Z.to_nat i) s)),
    (drop_chars (Z.to_nat i + Z.to_nat n) s), w2.
  split; [|split; [|split]].
  - unfold ret, slice_to, slice_from, slice_index.
    assert (Z.to_nat (if i <? 0 then Z.max 0 (len s + i) else Z.min (len s) i) =
            Z.to_nat i) as ->
      by (destruct (Z.ltb_spec i 0); unfold len in *; lia).
    assert (Z.to_nat (if i + n <? 0 then Z.max 0 (len s + (i + n))
                      else Z.min (len s) (i + n)) =
            (Z.to_nat i + Z.to_nat n)%nat) as ->
      by (destruct (Z.ltb_spec (i + n) 0); unfold len in *; lia).
    done.
  - exact Hsplit.
  - unfold len at 1 2. rewrite Hspan. lia.
  - unfold len, take_chars, drop_chars in *.
    rewrite count_take, count_drop.
    unfold take_chars, drop_chars in Hspan. rewrite Hspan. lia.
Qed.

(** The delete branch on a string of at most two characters, the empty string
    included: the result is the empty string, and nothing more is drawn. *)
Theorem mutate_value_str_short_empties s w :
  PyFloat.lt (rs_random (w_rng w)).1 PyFloat.half = false ->
  len s <= 2 ->
  mutate_value (VStr s) w = (Ok (VStr ""), set_rng (rs_random (w_rng w)).2 w).
Proof.
  intros Hge Hlen. unfold mutate_value. cbn [isinstance_str str_of].
  unfold bind at 1, random.
  destruct (rs_random (w_rng w)) as [u r]. cbn [fst snd] in *. rewrite Hge.
  destruct (Z.ltb_spec 2 (len s)); [lia | done].
Qed.

(** The integer strategy: the result is an integer at most 5 away. *)
Theorem mutate_value_int_within_5 n w :
  exists m w',
    mutate_value (VInt n) w = (Ok (VInt m), w') /\ n - 5 <= m <= n + 5.
Proof.
  unfold mutate_value. cbn [isinstance_str isinstance_int int_of].
  unfold bind at 1.
  destruct (keeps_randint (-5) 5 ltac:(lia) w) as (k & w1 & -> & Hk & _ & _).
  exists (n + k), w1. split; [done | lia].
Qed.

(** The float strategy leaves an infinity or a NaN as it is. *)
Theorem mutate_value_float_non_finite_fixed f w :
  non_finite f = true ->
  exists w', mutate_value (VFloat f) w = (Ok (VFloat f), w').
Proof.
  intros Hf. unfold mutate_value.
  cbn [isinstance_str isinstance_int isinstance_float float_of].
  unfold bind at 1, uniform.
  pose proof (rs_uniform_range PyFloat.neg_half PyFloat.half (w_rng w)
                ltac:(reflexivity)) as [Hlo Hhi].
  destruct (rs_uniform PyFloat.neg_half PyFloat.half (w_rng w)) as [u r].
  cbn [fst] in Hlo, Hhi. exists (set_rng r w). unfold ret. do 3 f_equal.
  destruct f as [| s | |]; try done;
    destruct u as [|su| |]; try done; destruct su; done.
Qed.

(** [mutate_value] keeps the type of every value that is not a boolean. *)
Theorem mutate_value_keeps_type v w :
  isinstance_bool v = false ->
  exists v' w', mutate_value v w = (Ok v', w') /\ type_name v' = type_name v.
Proof.
  intros Hb.
  assert (Hk : keeps (fun v' => type_name v' = type_name v) (mutate_value v)).
  { unfold mutate_value.
    destruct v as [|b|n|f|s|items|l]; try done; cbn [isinstance_str isinstance_int
      isinstance_float isinstance_bool].
    - eapply keeps_bind; [apply keeps_logging | intros _ _]. by apply keeps_ret.
    - eapply keeps_bind; [by apply keeps_randint | intros k _]. by apply keeps_ret.
    - eapply keeps_bind; [apply keeps_uniform | intros u _]. by apply keeps_ret.
    - eapply keeps_bind; [apply keeps_random | intros u _].
      destruct (PyFloat.lt u PyFloat.half).
      + eapply keeps_bind; [by apply keeps_randint | intros k _].
        eapply keeps_bind; [apply keeps_random_chars | intros x _].
        by apply keeps_ret.
      + cbn [str_of]. destruct (Z.ltb_spec 2 (len s)) as [Hlen|_];
          [|by apply keeps_ret].
        eapply keeps_bind;
          [apply keeps_randint; Z.div_mod_to_equations; lia
          | intros k Hk; cbv beta in Hk].
        eapply keeps_bind;
          [apply keeps_randint; Z.div_mod_to_equations; lia | intros j _].
        by apply keeps_ret.
    - eapply keeps_bind; [apply keeps_logging | intros _ _]. by apply keeps_ret.
    - eapply keeps_bind; [apply keeps_logging | intros _ _]. by apply keeps_ret. }
  destruct (Hk w) as (v' & w' & E & Ht & _). by exists v', w'.
Qed.

(** [mutate_value] never raises, whatever the value and the draws, and it
    touches neither the object store nor the file system. *)
Theorem mutate_value_never_raises v w :
  exists v' w', mutate_value v w = (Ok v', w') /\
    w_heap w' = w_heap w /\ w_fs w' = w_fs w.
Proof.
  destruct (mutate_value_keeps v w) as (v' & w' & E & _ & Hh & Hf).
  by exists v', w'.
Qed.

End ValueExtras.

(** ** More on [mutate_config] *)

Section TreeExtras.

Context {R : Type} `{RandomSource R}.

Implicit Types (w : world R).

(** One turn of the loop of [mutate_config]: on a nested mapping it is the
    nested call, whose own reference is stored back; on a leaf it stores at
    most one new value, the one [mutate_value] returned; and it keeps the
    shape of the store. *)
Lemma visit_spec depth l rate w1 n i :
  unique_keys (w_heap w1) -> n = length (dict_at (w_heap w1) l) -> (i < n)%nat ->
  exists key value,
    dict_at (w_heap w1) l !! i = Some (key, value) /\
    shape (w_heap (visit (fun v => mutate_config depth v rate) l n rate i w1).2) =
      shape (w_heap w1) /\
    match value with
    | VDict l' =>
        ((mutate_config depth (VDict l') rate w1).1 = Ok (VDict l') /\
         visit (fun v => mutate_config depth v rate) l n rate i w1 =
           (Ok tt, (mutate_config depth (VDict l') rate w1).2)) \/
        ((mutate_config depth (VDict l') rate w1).1 = Raise recursion_error /\
         visit (fun v => mutate_config depth v rate) l n rate i w1 =
           (Raise recursion_error, (mutate_config depth (VDict l') rate w1).2))
    | _ =>
        (visit (fun v => mutate_config depth v rate) l n rate i w1).1 = Ok tt /\
        exists v',
          (v' = value \/ exists wa wb, mutate_value value wa = (Ok v', wb)) /\
          w_heap (visit (fun v => mutate_config depth v rate) l n rate i w1).2 =
            <[l := <[i := (key, v')]> (dict_at (w_heap w1) l)]> (w_heap w1)
    end.
Proof.
  intros Hu -> Hi.
  destruct (dict_at (w_heap w1) l !! i) as [[key value]|] eqn:Ei;
    [|apply lookup_ge_None in Ei; lia].
  exists key, value. split; [done|].
  destruct (visit (fun v => mutate_config depth v rate) l
              (length (dict_at (w_heap w1) l)) rate i w1) as [ro wo] eqn:Eout.
  cbn [fst snd].
  unfold visit, bind at 1, next_item in Eout. rewrite Nat.eqb_refl, Ei in Eout.
  assert (Hd : <[i := (key, value)]> (dict_at (w_heap w1) l) = dict_at (w_heap w1) l)
    by (by apply list_insert_id).
  assert (Hl : <[l := dict_at (w_heap w1) l]> (w_heap w1) = w_heap w1).
  { unfold dict_at in *. destruct (w_heap w1 !! l) eqn:El; [|done].
    by apply list_insert_id. }
  destruct value as [|b|z|f|s|items|l']; cbn [isinstance_dict] in Eout.
  7: {
    unfold bind in Eout.
    destruct (mutate_config_spec depth l' rate w1 Hu) as (Hsh2 & _ & Hr & _).
    destruct (mutate_config depth (VDict l') rate w1) as [[v'|e] w2];
      cbn [fst snd] in *.
    - destruct Hr as [[= ->]|[? _]]; [|done].
      destruct (shape_item (w_heap w1) (w_heap w2) l i key (VDict l'))
        as (v2 & Ei2 & Hv2); [done..|].
      assert (v2 = VDict l') as -> by (destruct v2; cbn in Hv2; congruence).
      assert (Hu2 : unique_keys (w_heap w2)) by (by eapply unique_keys_shape).
      unfold setitem in Eout.
      rewrite (setitem_same _ _ _ _ _ Hu2 Ei2), set_heap_same in Eout.
      injection Eout as <- <-. split; [done|]. by left.
    - injection Eout as <- <-.
      destruct Hr as [?|[[= ->] _]]; [done|]. split; [done|]. by right.
  }
  all: unfold bind at 1, random in Eout;
    destruct (rs_random (w_rng w1)) as [u rg];
    destruct (PyFloat.lt u rate);
    [ unfold bind in Eout;
      match type of Eout with context [mutate_value ?v ?wa] =>
        destruct (mutate_value_keeps v wa) as (v' & w3 & Ev & Hv & Hh3 & Hf3);
        rewrite Ev in Eout
      end;
      injection Eout as <- <-;
      cbn [set_heap w_heap]; rewrite Hh3; cbn [set_rng w_heap];
      (split; [by eapply setitem_shape|]); split; [done|];
      exists v'; split; [right; eauto|];
      by erewrite dict_setitem_at by (eauto using unique_keys_at)
    | injection Eout as <- <-;
      cbn [set_rng w_heap]; split; [done|]; split; [done|];
      eexists; split; [by left|]; by rewrite Hd, Hl ].
Qed.

Lemma mutate_value_opaque v wa v' wb :
  opaque v = true -> mutate_value v wa = (Ok v', wb) -> v' = v.
Proof.
  intros Hop Hm.
  destruct v; try done; unfold mutate_value, bind, logging, ret in Hm;
    cbn in Hm; congruence.
Qed.

Lemma opaque_kept_refl (h : heap) : opaque_kept h h.
Proof. by intros l i k v. Qed.

Lemma opaque_kept_trans (h1 h2 h3 : heap) :
  opaque_kept h1 h2 -> opaque_kept h2 h3 -> opaque_kept h1 h3.
Proof. intros H12 H23 l i k v Hi Hv. apply H23; [|done]. by apply H12. Qed.

Lemma opaque_kept_insert (h : heap) (l i : nat) key value v' :
  dict_at h l !! i = Some (key, value) ->
  (opaque value = true -> v' = value) ->
  opaque_kept h (<[l := <[i := (key, v')]> (dict_at h l)]> h).
Proof.
  intros Hi Hv l0 j k v Hj Hop. unfold dict_at in *.
  destruct (decide (l0 = l)) as [->|Hne].
  - destruct (h !! l) as [d|] eqn:El; [|done]. cbn in *.
    rewrite list_lookup_insert_eq by (by eapply lookup_lt_Some). cbn.
    destruct (decide (j = i)) as [->|Hji].
    + rewrite Hi in Hj. injection Hj as -> ->.
      rewrite list_lookup_insert_eq by (by eapply lookup_lt_Some).
      by rewrite Hv.
    + by rewrite list_lookup_insert_ne.
  - by rewrite list_lookup_insert_ne.
Qed.

(** Values of a type without a strategy are never changed in the tree, also
    when a trial selects them: after [mutate_config], whatever the rate, every
    [None] and every list is where it was, with the value it had. *)
Theorem mutate_config_keeps_opaque_leaves depth l rate w :
  unique_keys (w_heap w) ->
  opaque_kept (w_heap w) (w_heap (mutate_config depth (VDict l) rate w).2).
Proof.
  revert l w. induction depth as [|depth IH]; intros l w Hu.
  { apply opaque_kept_refl. }
  destruct (mutate_config (S depth) (VDict l) rate w) as [r w'] eqn:E.
  cbn [fst snd]. rewrite mutate_config_unfold in E.
  unfold bind at 1, dict_len in E. cbv beta iota in E.
  set (n := length (dict_at (w_heap w) l)) in *.
  set (body := visit _ l n rate) in *.
  destruct (for_each_spec
    (fun w1 => shape (w_heap w1) = shape (w_heap w) /\
               opaque_kept (w_heap w) (w_heap w1))
    (fun _ => True) (seq 0 n) body) with (w := w) as [[_ Hk] _].
  - intros i w1 Hi [Hsh1 Hk1].
    apply elem_of_seq in Hi as [_ Hi]. cbn in Hi.
    assert (Hu1 : unique_keys (w_heap w1)) by (by eapply unique_keys_shape).
    assert (Hn : n = length (dict_at (w_heap w1) l))
      by (symmetry; by apply shape_length).
    destruct (visit_spec depth l rate w1 n i Hu1 Hn Hi)
      as (key & value & Ei & Hsh & Hcase).
    fold body in Hsh, Hcase.
    split; [|by destruct (body i w1).1]. split; [congruence|].
    eapply opaque_kept_trans; [exact Hk1|].
    destruct value as [|b|z|f|s|items|l'].
    7: { destruct Hcase as [[_ ->]|[_ ->]]; by apply IH. }
    all: destruct Hcase as (_ & v' & Hv' & ->);
      eapply opaque_kept_insert; [exact Ei|];
      intros Hop; destruct Hv' as [->|(wa & wb & Hm)]; [done|];
      by eapply mutate_value_opaque.
  - split; [done | apply opaque_kept_refl].
  - unfold bind in E.
    destruct (for_each (seq 0 n) body w) as [[[]|e] w1]; cbn in *;
      by injection E as <- <-.
Qed.

(** A loop that ends normally has run its body to a normal end for every
    element. *)
Lemma for_each_collect {A} (I : world R -> Prop) (Q : A -> Prop)
    (xs : list A) (body : A -> M R unit) :
  (forall x w, x ∈ xs -> I w ->
     I (body x w).2 /\ ((body x w).1 = Ok tt -> Q x)) ->
  forall w, I w -> (for_each xs body w).1 = Ok tt -> forall x, x ∈ xs -> Q x.
Proof.
  induction xs as [|x xs IHxs]; intros Hb w HI Hok y Hy.
  - by apply elem_of_nil in Hy.
  - cbn [for_each] in Hok. unfold bind in Hok.
    destruct (Hb x w) as [HI1 HQ]; [left | done |].
    destruct (body x w) as [[[]|e] w1]; cbn in *; [|done].
    apply elem_of_cons in Hy as [->|Hy]; [by apply HQ|].
    eapply IHxs; [|exact HI1|exact Hok|exact Hy].
    intros z w' Hz. apply Hb. by right.
Qed.

Lemma mutate_config_ok_within depth l rate w v :
  unique_keys (w_heap w) ->
  (mutate_config depth (VDict l) rate w).1 = Ok v ->
  within_depth depth (shape (w_heap w)) l = true.
Proof.
  revert l w v. induction depth as [|depth IH]; intros l w v Hu Hok; [done|].
  rewrite mutate_config_unfold in Hok.
  unfold bind at 1, dict_len in Hok. cbv beta iota in Hok.
  set (n := length (dict_at (w_heap w) l)) in *.
  set (sh := shape (w_heap w)) in *.
  set (body := visit _ l n rate) in *.
  assert (Hloop : (for_each (seq 0 n) body w).1 = Ok tt).
  { unfold bind in Hok. by destruct (for_each (seq 0 n) body w) as [[[]|e] w1]. }
  pose proof (for_each_collect
    (fun w1 => shape (w_heap w1) = sh)
    (fun i => forall k l', default [] (sh !! l) !! i = Some (k, Some l') ->
                within_depth depth sh l' = true)
    (seq 0 n) body) as Hall.
  cbn [within_depth]. apply forallb_forall. intros [k t] Hin. cbn.
  destruct t as [l'|]; [|done].
  apply list_elem_of_In, list_elem_of_lookup in Hin as [i Hi].
  eapply (Hall) with (w := w) (x := i); [|done|done| |exact Hi].
  - clear i Hi. intros i w1 Hi Hsh1.
    apply elem_of_seq in Hi as [_ Hi]. cbn in Hi.
    assert (Hu1 : unique_keys (w_heap w1)) by (by eapply unique_keys_shape).
    assert (Hn : n = length (dict_at (w_heap w1) l))
      by (symmetry; by apply shape_length).
    destruct (visit_spec depth l rate w1 n i Hu1 Hn Hi)
      as (key & value & Ei & Hsh & Hcase).
    fold body in Hsh, Hcase. split; [congruence|].
    intros Hbody k0 l0 Hitem.
    apply shape_lookup in Ei. rewrite shape_dict_at, Hsh1 in Ei.
    rewrite Hitem in Ei. injection Ei as -> Hv.
    destruct value; try done. cbn in Hv. injection Hv as ->.
    destruct Hcase as [[Hr _]|[_ Hr]]; [|by rewrite Hr in Hbody].
    rewrite <- Hsh1. by eapply IH.
  - apply elem_of_seq. split; [lia|]. cbn.
    apply lookup_lt_Some in Hi. subst n sh.
    rewrite <- shape_dict_at in Hi. unfold shape_obj in Hi.
    by rewrite length_fmap in Hi.
Qed.

(** [mutate_config] on a mapping returns that mapping or raises a
    [RecursionError], and nothing else; it raises when the mappings nest
    deeper than the nested calls of [mutate_config] the interpreter
    allows. *)
Theorem mutate_config_raises_only_recursion_error depth l rate w :
  unique_keys (w_heap w) ->
  ((mutate_config depth (VDict l) rate w).1 = Ok (VDict l) \/
   exists e, (mutate_config depth (VDict l) rate w).1 = Raise e /\
             exn_cls e = RecursionError) /\
  (within_depth depth (shape (w_heap w)) l = false ->
   exists e, (mutate_config depth (VDict l) rate w).1 = Raise e /\
             exn_cls e = RecursionError).
Proof.
  intros Hu.
  destruct (mutate_config_spec depth l rate w Hu) as (_ & _ & Hr & _).
  destruct Hr as [Hok|[Hr _]].
  - split; [by left|]. intros Hd.
    by rewrite (mutate_config_ok_within depth l rate w _ Hu Hok) in Hd.
  - split; [right|intros _]; by exists recursion_error.
Qed.

Lemma lt_not_positive_false (u rate : float) :
  PyFloat.le PyFloat.zero u = true -> PyFloat.lt PyFloat.zero rate = false ->
  PyFloat.lt u rate = false.
Proof.
  unfold PyFloat.le, PyFloat.lt, SFleb, SFltb, PyFloat.zero.
  destruct u as [s|s| |s m e], rate as [s'|s'| |s' m' e']; cbn;
    try destruct s; try destruct s'; cbn; congruence.
Qed.

(** A rate that is not above zero (zero, negative, or NaN) selects no leaf:
    [mutate_config] returns its argument and changes nothing but the state of
    the random source. *)
Theorem mutate_config_rate_not_positive depth l rate w :
  PyFloat.lt PyFloat.zero rate = false ->
  unique_keys (w_heap w) ->
  within_depth depth (shape (w_heap w)) l = true ->
  exists r, mutate_config depth (VDict l) rate w = (Ok (VDict l), set_rng r w).
Proof.
  intros Hrate Hu Hd.
  assert (Hw : forall depth l w, unique_keys (w_heap w) ->
            exists r, (mutate_config depth (VDict l) rate w).2 = set_rng r w).
  { clear depth l w Hu Hd. intros depth.
    induction depth as [|depth IH]; intros l w Hu.
    { exists (w_rng w). by destruct w. }
    destruct (mutate_config (S depth) (VDict l) rate w) as [r w'] eqn:E.
    cbn [fst snd]. rewrite mutate_config_unfold in E.
    unfold bind at 1, dict_len in E. cbv beta iota in E.
    set (n := length (dict_at (w_heap w) l)) in *.
    set (body := visit _ l n rate) in *.
    destruct (for_each_spec (fun w1 => exists r1, w1 = set_rng r1 w)
                (fun _ => True) (seq 0 n) body) with (w := w) as [[r1 Hw1] _].
    - intros i w1 _ [r1 ->].
      destruct (body i (set_rng r1 w)) as [ri wi] eqn:Eb. cbn [fst snd].
      subst body. unfold visit, bind at 1, next_item in Eb.
      cbn [w_heap set_rng] in Eb.
      destruct (_ =? _)%nat;
        [|injection Eb as <- <-; split; [by exists r1 | done]].
      destruct (dict_at (w_heap w) l !! i) as [[key value]|] eqn:Ei;
        [|injection Eb as <- <-; split; [by exists r1 | done]].
      destruct value as [|b|z|f|s|items|l']; cbn [isinstance_dict] in Eb.
      7: {
        unfold bind in Eb.
        destruct (IH l' (set_rng r1 w) Hu) as [r2 Hw2].
        destruct (mutate_config_spec depth l' rate (set_rng r1 w) Hu)
          as (_ & _ & Hr & _).
        destruct (mutate_config depth (VDict l') rate (set_rng r1 w))
          as [[v'|e] w2]; cbn [fst snd] in *; subst w2.
        - destruct Hr as [[= ->]|[? _]]; [|done].
          injection Eb as <- <-. split; [|done]. exists r2.
          unfold set_heap. cbn. erewrite setitem_same; [done..|exact Ei].
        - injection Eb as <- <-. split; [by exists r2 | done].
      }
      all: unfold bind, random in Eb;
        pose proof (rs_random_range (w_rng (set_rng r1 w))) as [Hge _];
        destruct (rs_random (w_rng (set_rng r1 w))) as [u r2];
        cbn [fst] in Hge; rewrite (lt_not_positive_false u rate Hge Hrate) in Eb;
        injection Eb as <- <-; split; [by exists r2 | done].
    - by exists (w_rng w); destruct w.
    - subst. unfold bind in E.
      destruct (for_each (seq 0 n) body w) as [[[]|e] w1]; cbn in *;
        injection E as <- <-; by exists r1. }
  destruct (Hw depth l w Hu) as [r Hr]. exists r.
  destruct (mutate_config_spec depth l rate w Hu) as (_ & _ & Hres & _).
  destruct (mutate_config depth (VDict l) rate w) as [res w'].
  cbn [fst snd] in *. subst w'.
  destruct Hres as [->|[_ Hf]]; [done | congruence].
Qed.

End TreeExtras.

(** ** More on the orchestrator *)

Section OrchestratorExtras.

Context {R : Type} `{RandomSource R} (env : Env).

Implicit Types (w : world R).

(** *** Which events the stages append *)

Lemma emits_load_config_gen P path :
  (forall lvl msg, P (Log lvl msg) = true) ->
  (forall p, P (OpenRead p) = true) ->
  emits P (load_config (R := R) env path).
Proof.
  intros Hlog Hread. unfold load_config.
  repeat first
    [ apply emits_os_path_exists | apply emits_open_read, Hread
    | apply emits_parse | apply emits_logging, Hlog | emits_step ].
Qed.

Lemma emits_save_config_gen P config path :
  (forall lvl msg, P (Log lvl msg) = true) ->
  (forall p, P (OpenWrite p) = true) ->
  emits P (save_config (R := R) env config path).
Proof.
  intros Hlog Hwrite. unfold save_config.
  repeat first
    [ apply emits_open_write, Hwrite | apply emits_dump
    | apply emits_logging, Hlog | emits_step ].
Qed.

Lemma emits_prepare_gen P args :
  admits_io P -> emits P (prepare env args).
Proof.
  intros (Hlog & Hread & Hwrite). unfold prepare.
  repeat first
    [ by apply emits_load_config_gen | by apply emits_save_config_gen
    | by apply emits_mutate_config | emits_step ].
Qed.

Lemma emits_lint_config_gen P path :
  (forall lvl msg, P (Log lvl msg) = true) ->
  (forall argv, P (Run (Argv argv)) = true) ->
  emits P (lint_config (R := R) env path).
Proof.
  intros Hlog Hrun. unfold lint_config, lint_with.
  repeat first
    [ apply emits_run, Hrun | apply emits_logging, Hlog | emits_step ].
Qed.

Lemma emits_run_test_command P path template :
  (forall lvl msg, P (Log lvl msg) = true) ->
  (forall cmd, P (Run (Shell cmd)) = true) ->
  emits P (run_test_command (R := R) env path template).
Proof.
  intros Hlog Hrun. unfold run_test_command.
  repeat first
    [ apply emits_run, Hrun | apply emits_logging, Hlog
    | apply emits_silent; intros ?; by destruct (Format.format _ _ _)
    | emits_step ].
Qed.

Lemma emits_test_stage P args out :
  (forall lvl msg, P (Log lvl msg) = true) ->
  (forall cmd, P (Run (Shell cmd)) = true) ->
  emits P (test_stage (R := R) env args out).
Proof.
  intros Hlog Hrun. unfold test_stage.
  repeat first
    [ by apply emits_run_test_command | apply emits_logging, Hlog | emits_step ].
Qed.

Lemma emits_main_handler P (e : exn) :
  (forall lvl msg, P (Log lvl msg) = true) ->
  emits (R := R) P
    (if is_FileNotFoundError e then
       bind (logging ERROR ("File not found: " +:+ exn_str e)) (fun _ => ret 1)
     else if is_ValueError e then
       bind (logging ERROR ("Value error: " +:+ exn_str e)) (fun _ => ret 1)
     else
       bind (logging ERROR ("An unexpected error occurred: " +:+ exn_str e))
            (fun _ => ret 1)).
Proof.
  intros Hlog. repeat first [ apply emits_logging, Hlog | emits_step ].
Qed.

(** Without [--lint] no linter is started, whatever else happens. *)
Theorem main_without_lint_starts_no_linter args w :
  lint args = false ->
  exists evs, w_trace (main env args w).2 = w_trace w ++ evs /\
              forallb not_lint_run evs = true.
Proof.
  intros Hlint. revert w. change (emits not_lint_run (main env args)).
  unfold main, lint_gate. rewrite Hlint.
  apply emits_try_except; [|intros e; by apply emits_main_handler].
  apply emits_bind; [by apply emits_prepare_gen | intros out].
  by apply emits_test_stage.
Qed.

(** Without a test command, or with an empty one, no shell command is run,
    whatever else happens. *)
Theorem main_without_test_command_runs_no_shell args w :
  truthy (test_command args) = false ->
  exists evs, w_trace (main env args w).2 = w_trace w ++ evs /\
              forallb not_test_run evs = true.
Proof.
  intros Htest. revert w. change (emits not_test_run (main env args)).
  unfold main, lint_gate, test_stage. rewrite Htest.
  apply emits_try_except; [|intros e; by apply emits_main_handler].
  apply emits_bind; [apply emits_prepare | intros out].
  repeat first [ apply emits_lint_config | emits_step ].
Qed.

(** *** What the stages return *)

Lemma lint_config_never_raises path w :
  exists b, (lint_config env path w).1 = Ok b.
Proof.
  unfold lint_config, try_except.
  destruct (is_yaml path); [|destruct (is_json path); [|by exists true]].
  all: unfold lint_with, bind, run;
    destruct (subprocess_run env _ (w_fs w)) as [[p|e] fs']; cbn;
    [ destruct (negb _); eauto | destruct (is_FileNotFoundError e); eauto ].
Qed.

(** [lint_config] never raises, and it returns [False] exactly when the
    linter exits with a nonzero code or cannot be started. *)
Theorem lint_config_false_iff_lint_fails path w :
  exists b, (lint_config env path w).1 = Ok b /\
            (b = false <-> lint_fails env path (w_fs w)).
Proof.
  unfold lint_config, try_except, lint_fails, linter_of.
  destruct (is_yaml path); [|destruct (is_json path)].
  3: { exists true. split; [done|]. split; [done|]. by intros (tool & ? & _). }
  all: unfold lint_with, bind, run;
    destruct (subprocess_run env _ (w_fs w)) as [[p|e] fs'] eqn:Erun; cbn.
  all: try (destruct (Z.eqb_spec (returncode p) 0) as [Hz|Hnz]; cbn;
       [ exists true; split; [done|]; split; [done|];
         intros (tool & [= <-] & Hp); rewrite Erun in Hp; by cbn in Hp
       | exists false; split; [done|]; split; [|done];
         intros _; eexists; split; [done|]; by rewrite Erun ]).
  all: exists false; split; [by destruct (is_FileNotFoundError e)|];
    split; [|done]; intros _; eexists; split; [done|]; by rewrite Erun.
Qed.

(** [run_test_command] never raises, and it returns 0 exactly when the
    template could be formatted and the process it started returned 0. *)
Theorem run_test_command_zero_iff path template w :
  exists c, (run_test_command env path template w).1 = Ok c /\
    (c = 0 <->
     exists cmd p,
       Format.format (str_format_ext env) template path = Ok cmd /\
       (subprocess_run env (Shell cmd) (w_fs w)).1 = Ok p /\
       returncode p = 0).
Proof.
  unfold run_test_command, try_except, bind.
  destruct (Format.format (str_format_ext env) template path) as [cmd|e] eqn:Ef.
  2: { exists (-1). split; [done|]. split; [done|]. by intros (? & ? & ? & _). }
  unfold logging at 1, run. cbn [w_fs emit].
  destruct (subprocess_run env (Shell cmd) (w_fs w)) as [[p|e] fs'] eqn:Erun.
  - exists (returncode p). split; [by destruct (negb _)|]. split.
    + intros Hz. exists cmd, p. by rewrite Erun.
    + intros (cmd' & p' & [= <-] & Hp & Hz). rewrite Erun in Hp. cbn in Hp.
      by injection Hp as <-.
  - exists (-1). split; [done|]. split; [done|].
    intros (cmd' & p' & [= <-] & Hp & _). by rewrite Erun in Hp.
Qed.

Lemma run_test_command_returns path template w :
  exists c w', run_test_command env path template w = (Ok c, w').
Proof.
  unfold run_test_command, try_except, bind.
  destruct (Format.format (str_format_ext env) template path) as [cmd|e];
    [|by eexists _, _].
  unfold logging at 1, run. cbn [w_fs emit].
  destruct (subprocess_run env (Shell cmd) (w_fs w)) as [[p|e] fs'];
    [destruct (negb _)|]; by eexists _, _.
Qed.

Lemma test_stage_verdict args out w : verdict (test_stage env args out w).
Proof.
  unfold test_stage, verdict.
  destruct (truthy (test_command args)).
  - unfold bind at 1.
    destruct (run_test_command_returns out (default "" (test_command args)) w)
      as (c & w' & ->).
    destruct (negb (c =? 0)); eexists _, _, _, _; (split; [reflexivity|]); eauto.
  - eexists _, _, _, _; (split; [reflexivity|]); eauto.
Qed.

Lemma lint_gate_verdict args out w : verdict (lint_gate env args out w).
Proof.
  unfold lint_gate. destruct (lint args); [|apply test_stage_verdict].
  unfold bind at 1.
  destruct (lint_config_never_raises out w) as [b Hb].
  destruct (lint_config env out w) as [r w2]. cbn in Hb. subst r.
  destruct b; cbn [negb]; [apply test_stage_verdict|].
  eexists _, _, _, _; (split; [reflexivity|]); eauto.
Qed.

(** Once the command line is parsed, [main] lets no exception of its
    stages escape: the [try] statement of lines 250-290 returns exit code 0
    or 1, and the last thing it does is log the verdict, an INFO record
    before 0 and an ERROR record before 1. *)
Theorem main_returns_verdict args w :
  exists code lvl msg w',
    main env args w = (Ok code, emit (Log lvl msg) w') /\
    ((code = 0 /\ lvl = INFO) \/ (code = 1 /\ lvl = ERROR)).
Proof.
  change (verdict (main env args w)).
  unfold main, try_except, bind at 1.
  destruct (prepare env args w) as [[out|e] w1].
  - destruct (lint_gate_verdict args out w1) as (code & lvl & msg & w' & -> & Hv).
    by exists code, lvl, msg, w'.
  - destruct (is_FileNotFoundError e); [|destruct (is_ValueError e)];
      eexists _, _, _, _; (split; [reflexivity|]); eauto.
Qed.

(** *** Templates *)

(** A template with a second placeholder is never run: formatting raises,
    no process is started, and [run_test_command] returns [-1]. *)
Theorem run_test_command_second_placeholder pre mid post path w :
  brace_free pre = true -> brace_free mid = true ->
  run_test_command env path (pre +:+ "{}" +:+ mid +:+ "{}" +:+ post) w =
  (Ok (-1),
   emit (Log ERROR ("Error executing test command: " +:+
                    "Replacement index 1 out of range for positional args tuple"))
        w).
Proof.
  intros Hpre Hmid.
  assert (Hf : Format.format (str_format_ext env)
                 (pre +:+ "{}" +:+ mid +:+ "{}" +:+ post) path =
               Raise (Exn IndexError
                 "Replacement index 1 out of range for positional args tuple")).
  { unfold Format.format.
    rewrite scan_text by done. rewrite !append_cons, !append_nil_l.
    cbn [Format.scan]. unfold Format.step at 1.
    cbn [Format.st_mode Format.st_out Format.st_auto Ascii.eqb Bool.eqb].
    unfold Format.step at 1.
    cbn [Format.st_mode Format.st_out Format.st_auto Ascii.eqb Bool.eqb
         Format.in_field Format.field Format.substitute].
    rewrite scan_text by done.
    cbn [Format.scan]. unfold Format.step at 1.
    cbn [Format.st_mode Format.st_out Format.st_auto Ascii.eqb Bool.eqb].
    unfold Format.step at 1.
    cbn [Format.st_mode Format.st_out Format.st_auto Ascii.eqb Bool.eqb
         Format.in_field Format.field Format.substitute].
    reflexivity. }
  unfold run_test_command, try_except, bind. by rewrite Hf.
Qed.

(** A template without any brace is run as it stands. *)
Theorem run_test_command_no_placeholder template path w :
  brace_free template = true ->
  exists evs,
    w_trace (run_test_command env path template w).2 =
      w_trace w ++
      Log INFO ("Executing test command: " +:+ template) ::
      Run (Shell template) :: evs /\
    forallb not_run evs = true.
Proof.
  intros Hfree.
  assert (Hf : Format.format (str_format_ext env) template path = Ok template).
  { unfold Format.format. rewrite <- (append_nil_r template) at 1.
    by rewrite scan_text. }
  unfold run_test_command, try_except, bind. rewrite Hf.
  unfold logging at 1, run. cbn [w_fs emit].
  destruct (subprocess_run env _ (w_fs w)) as [[p|e] fs']; cbn.
  - destruct (negb _); cbn; rewrite <- !app_assoc; cbn; eexists;
      (split; [reflexivity|done]).
  - rewrite <- !app_assoc; cbn; eexists; (split; [reflexivity|done]).
Qed.

(** *** Loading and saving *)

Lemma load_config_fs path w : w_fs (load_config env path w).2 = w_fs w.
Proof.
  unfold load_config, bind at 1, os_path_exists.
  destruct (negb _); [done|].
  unfold try_except, bind, open_read.
  destruct (open_read_error env (w_fs w) path) as [e|].
  { by destruct (is_YAMLError e), (is_JSONDecodeError e). }
  assert (Hp : forall parser text (w0 : world R),
            w_fs (let '(r, w1) := parse parser text w0 in
                  match r with
                  | Ok a => (Ok a, w1)
                  | Raise e =>
                      (if is_YAMLError e
                       then bind (logging ERROR ("Error parsing YAML file: " +:+ exn_str e))
                                 (fun _ => raise e)
                       else if is_JSONDecodeError e
                       then bind (logging ERROR ("Error parsing JSON file: " +:+ exn_str e))
                                 (fun _ => raise e)
                       else raise e) w1
                  end).2 = w_fs w0).
  { intros parser text w0. unfold parse.
    destruct (parser text) as [[h v]|e]; [done|].
    by destruct (is_YAMLError e), (is_JSONDecodeError e). }
  destruct (w_fs w !! path) as [[content|]|]; try done.
  destruct (is_yaml path); [by rewrite Hp|].
  destruct (is_json path); [by rewrite Hp|]. done.
Qed.

(** [load_config] only reads: whatever its outcome, the file system is as
    before, and it has opened nothing for writing and started no process. *)
Theorem load_config_only_reads path w :
  w_fs (load_config env path w).2 = w_fs w /\
  exists evs, w_trace (load_config env path w).2 = w_trace w ++ evs /\
              forallb read_only evs = true.
Proof.
  split; [apply load_config_fs|]. by apply emits_load_config_gen.
Qed.

(** A document whose top level is not a mapping (an empty YAML file, a list,
    a scalar) makes [main] fail before anything is written: exit code 1, the
    file system unchanged, no file opened for writing. *)
Theorem main_rejects_non_mapping_document args w v w1 :
  load_config env (config_file args) w = (Ok v, w1) ->
  isinstance_dict v = false ->
  exists e,
    main env args w =
      (Ok 1, emit (Log ERROR ("An unexpected error occurred: " +:+ exn_str e)) w1) /\
    w_fs w1 = w_fs w /\
    exists evs, w_trace w1 = w_trace w ++ evs /\ forallb read_only evs = true.
Proof.
  intros Hload Hv.
  pose proof (load_config_fs (config_file args) w) as Hfs.
  pose proof (emits_load_config_gen read_only (config_file args)
                ltac:(done) ltac:(done) w) as Htr.
  rewrite Hload in Hfs, Htr. cbn [snd] in Hfs, Htr.
  assert (Hm : exists e, mutate_config (recursion_limit env) v
                           (mutation_rate args) w1 = (Raise e, w1) /\
                         is_FileNotFoundError e = false /\ is_ValueError e = false).
  { destruct (recursion_limit env); [by eexists|].
    destruct v; try done; by eexists. }
  destruct Hm as (e & Hm & He1 & He2). exists e. split; [|done].
  unfold main, try_except, bind at 1, prepare, bind at 1. rewrite Hload.
  unfold bind at 1. rewrite Hm. by rewrite He1, He2.
Qed.

(** A configuration file of an unsupported type is opened and then refused:
    [main] returns 1 after reporting a value error, and writes nothing. *)
Theorem main_rejects_unsupported_input_type args w content :
  w_fs w !! config_file args = Some (File content) ->
  open_read_error env (w_fs w) (config_file args) = None ->
  is_yaml (config_file args) = false -> is_json (config_file args) = false ->
  main env args w =
  (Ok 1,
   emit (Log ERROR ("Value error: " +:+
                    "Unsupported configuration file type.  Must be YAML or JSON."))
        (emit (OpenRead (config_file args)) w)).
Proof.
  intros Hfile Hopen Hy Hj.
  unfold main, try_except, bind at 1, prepare, bind at 1, load_config, bind at 1,
    os_path_exists. rewrite Hfile. cbn [negb bool_decide].
  replace (bool_decide (is_Some (Some (File content)))) with true
    by (symmetry; by apply bool_decide_eq_true).
  cbn [negb]. unfold try_except, bind, open_read. by rewrite Hopen, Hfile, Hy, Hj.
Qed.

(** A JSON document that does not parse is reported twice, by [load_config]
    and, since [JSONDecodeError] is a [ValueError], as a value error by
    [main], which returns 1. *)
Theorem main_reports_json_parse_error args w content e :
  w_fs w !! config_file args = Some (File content) ->
  open_read_error env (w_fs w) (config_file args) = None ->
  is_yaml (config_file args) = false -> is_json (config_file args) = true ->
  json_load env content = Raise e -> exn_cls e = JSONDecodeError ->
  main env args w =
  (Ok 1,
   emit (Log ERROR ("Value error: " +:+ exn_str e))
     (emit (Log ERROR ("Error parsing JSON file: " +:+ exn_str e))
        (emit (OpenRead (config_file args)) w))).
Proof.
  intros Hfile Hopen Hy Hj Hparse Hcls.
  unfold main, try_except, bind at 1, prepare, bind at 1, load_config, bind at 1,
    os_path_exists. rewrite Hfile.
  replace (bool_decide (is_Some (Some (File content)))) with true
    by (symmetry; by apply bool_decide_eq_true).
  cbn [negb]. unfold try_except, bind, open_read, parse.
  rewrite Hopen, Hfile, Hy, Hj, Hparse.
  unfold is_YAMLError, is_JSONDecodeError. rewrite Hcls.
  unfold logging, raise, ret. cbv beta iota.
  unfold is_FileNotFoundError, is_ValueError. by rewrite Hcls.
Qed.

(** A YAML document that does not parse is reported by [load_config] and
    then by the last handler of [main], which returns 1. *)
Theorem main_reports_yaml_parse_error args w content e :
  w_fs w !! config_file args = Some (File content) ->
  open_read_error env (w_fs w) (config_file args) = None ->
  is_yaml (config_file args) = true ->
  yaml_safe_load env content = Raise e -> exn_cls e = YAMLError ->
  main env args w =
  (Ok 1,
   emit (Log ERROR ("An unexpected error occurred: " +:+ exn_str e))
     (emit (Log ERROR ("Error parsing YAML file: " +:+ exn_str e))
        (emit (OpenRead (config_file args)) w))).
Proof.
  intros Hfile Hopen Hy Hparse Hcls.
  unfold main, try_except, bind at 1, prepare, bind at 1, load_config, bind at 1,
    os_path_exists. rewrite Hfile.
  replace (bool_decide (is_Some (Some (File content)))) with true
    by (symmetry; by apply bool_decide_eq_true).
  cbn [negb]. unfold try_except, bind, open_read, parse.
  rewrite Hopen, Hfile, Hy, Hparse.
  unfold is_YAMLError, is_JSONDecodeError. rewrite Hcls.
  unfold logging, raise, ret. cbv beta iota.
  unfold is_FileNotFoundError, is_ValueError. by rewrite Hcls.
Qed.

(** Saving to a path of an unsupported type fails only after the file has
    been opened for writing: the error is raised and an empty file is left at
    the path, whatever was there. *)
Theorem save_config_bad_extension_truncates config path w :
  is_yaml path = false -> is_json path = false ->
  open_write_error env (w_fs w) path = None ->
  w_fs w !! path <> Some Dir ->
  save_config env config path w =
  (Raise (Exn ValueError
            "Unsupported configuration file type. Must be YAML or JSON."),
   emit (Log ERROR ("Error writing configuration to file: " +:+
                    "Unsupported configuration file type. Must be YAML or JSON."))
     (set_fs (<[path := File ""]> (w_fs w)) (emit (OpenWrite path) w))).
Proof.
  intros Hy Hj Hopen Hdir.
  unfold save_config, try_except, bind, open_write. rewrite Hopen, Hy, Hj.
  by destruct (w_fs w !! path) as [[]|].
Qed.

(** When stages 1 to 3 succeed, the configuration was loaded and then
    mutated, and the file named by [-o], or the input file when [-o] is
    absent or empty, holds the serialisation of the mutated tree as the
    object store has it after mutation; no other file is changed by the
    save, and the save leaves the object store alone. *)
Theorem prepare_writes_output_file args w out w1 :
  prepare env args w = (Ok out, w1) ->
  out = (if truthy (output_file args) then default "" (output_file args)
         else config_file args) /\
  exists config wa mutated wb,
    load_config env (config_file args) w = (Ok config, wa) /\
    mutate_config (recursion_limit env) config (mutation_rate args) wa =
      (Ok mutated, wb) /\
    w_heap w1 = w_heap wb /\
    w_fs w1 =
      <[out := File ((if is_yaml out then yaml_dump env else json_dump env)
                       (w_heap wb) mutated).1]> (w_fs wb).
Proof.
  unfold prepare, bind at 1.
  destruct (load_config env (config_file args) w) as [[config|e] wa] eqn:El;
    [|done].
  unfold bind at 1.
  destruct (mutate_config _ config _ wa) as [[m|e] wb] eqn:Em; [|done].
  set (o := if truthy (output_file args) then default "" (output_file args)
            else config_file args).
  unfold bind, save_config, try_except, bind, open_write.
  destruct (open_write_error env (w_fs wb) o); [done|].
  destruct (w_fs wb !! o) as [[]|]; try done.
  all: unfold dump; cbn [w_heap w_fs set_fs emit];
    destruct (is_yaml o) eqn:Hy; [|destruct (is_json o) eqn:Hj; [|done]].
  all: first [ destruct (yaml_dump env _ _) as [text [err|]] eqn:Ed
             | destruct (json_dump env _ _) as [text [err|]] eqn:Ed ]; [done|].
  all: cbn [w_heap set_fs emit] in Ed;
    cbn; intros [= <- <-]; split; [done|]; exists config, wa, m, wb; cbn;
    rewrite ?Hy, ?Hj, Ed; cbn; by rewrite insert_insert_eq.
Qed.

(** *** The lint stage and the verdict *)

(** [lint_config] starts the one linter chosen by the extension of the file,
    with the path as its only argument, and nothing else; for any other
    extension it starts nothing. *)
Theorem lint_config_runs_chosen_linter path w :
  exists logs,
    w_trace (lint_config env path w).2 =
      w_trace w ++
      match linter_of path with
      | Some tool => [Run (Argv [tool; path])]
      | None => []
      end ++ logs /\
    forallb not_run logs = true.
Proof.
  unfold lint_config, try_except, linter_of.
  destruct (is_yaml path); [|destruct (is_json path)].
  3: { eexists [_]. split; [reflexivity|done]. }
  all: unfold lint_with, bind, run;
    destruct (subprocess_run env _ (w_fs w)) as [[p|e] fs']; cbn;
    [ destruct (negb _) | destruct (is_FileNotFoundError e) ]; cbn;
    rewrite <- !app_assoc; cbn; eexists; (split; [reflexivity|done]).
Qed.

(** Exit code 0 means that every stage that was asked for passed: the
    mutated tree was saved, the linter, if requested, did not fail, and the
    test command, if configured, returned 0. *)
Theorem main_success_means_all_passed args w :
  (main env args w).1 = Ok 0 ->
  exists out w1,
    prepare env args w = (Ok out, w1) /\
    (lint args = true -> ~ lint_fails env out (w_fs w1)) /\
    (truthy (test_command args) = true ->
     (run_test_command env out (default "" (test_command args))
        (if lint args then (lint_config env out w1).2 else w1)).1 = Ok 0).
Proof.
  unfold main, try_except, bind at 1.
  destruct (prepare env args w) as [[out|e] w1].
  2: { by destruct (is_FileNotFoundError e), (is_ValueError e). }
  intros Hok. exists out, w1. split; [done|].
  assert (Hts : forall w2, (test_stage env args out w2).1 = Ok 0 ->
            truthy (test_command args) = true ->
            (run_test_command env out (default "" (test_command args)) w2).1 = Ok 0).
  { intros w2 Hs Ht. unfold test_stage in Hs. rewrite Ht in Hs.
    unfold bind at 1 in Hs.
    destruct (run_test_command_returns out (default "" (test_command args)) w2)
      as (c & w3 & E). rewrite E in Hs |- *. cbn [fst].
    destruct (Z.eqb_spec c 0) as [->|Hne]; [done|]. by cbn in Hs. }
  assert (Hres : (lint_gate env args out w1).1 = Ok 0).
  { destruct (lint_gate_verdict args out w1) as (code & lvl & msg & w' & E & _).
    by rewrite E in Hok |- *. }
  clear Hok. unfold lint_gate in Hres. destruct (lint args).
  - unfold bind at 1 in Hres.
    destruct (lint_config_never_raises out w1) as [b Hb].
    pose proof (lint_config_false env out w1) as Hfalse.
    destruct (lint_config env out w1) as [r w2]. cbn [fst snd] in *. subst r.
    destruct b; cbn [negb] in Hres; [|done]. split.
    + intros _ Hfail. by specialize (Hfalse Hfail).
    + by apply Hts.
  - split; [done|]. by apply Hts.
Qed.

End OrchestratorExtras.

(** ** The further properties at sample inputs *)

Section Samples2.

Import Sample Sample2.

Lemma mutate_value_str_appends_witness :
  PyFloat.lt (rs_random (w_rng append_ab)).1 PyFloat.half = true /\
  exists suffix w',
    mutate_value (VStr "svc") append_ab = (Ok (VStr ("svc" +:+ suffix)), w') /\
    1 <= len suffix <= 5 /\ drawn_from chars suffix.
Proof.
  split; [reflexivity|].
  apply (mutate_value_str_appends "svc" append_ab). reflexivity.
Defined.

Lemma mutate_value_str_deletes_span_witness :
  PyFloat.lt (rs_random (w_rng delete_2_at_1)).1 PyFloat.half = false /\
  2 < len "日本語です" /\
  exists before span after w',
    mutate_value (VStr "日本語です") delete_2_at_1 =
      (Ok (VStr (before +:+ after)), w') /\
    "日本語です" = before +:+ span +:+ after /\
    1 <= len span <= len "日本語です" / 2 /\
    len before + len span + len after = len "日本語です".
Proof.
  split; [reflexivity|]. split; [reflexivity|].
  apply (mutate_value_str_deletes_span "日本語です" delete_2_at_1); reflexivity.
Defined.

Lemma mutate_value_str_short_empties_witness :
  PyFloat.lt (rs_random (w_rng delete_2_at_1)).1 PyFloat.half = false /\
  len "日本" <= 2 /\
  mutate_value (VStr "日本") delete_2_at_1 =
    (Ok (VStr ""), set_rng (rs_random (w_rng delete_2_at_1)).2 delete_2_at_1).
Proof.
  split; [reflexivity|]. split; [discriminate|].
  apply (mutate_value_str_short_empties "日本" delete_2_at_1);
    [reflexivity | discriminate].
Defined.

Lemma mutate_value_float_non_finite_fixed_witness :
  non_finite infinity = true /\
  exists w', mutate_value (VFloat infinity) loaded = (Ok (VFloat infinity), w').
Proof.
  split; [reflexivity|].
  apply (mutate_value_float_non_finite_fixed infinity loaded). reflexivity.
Defined.

Lemma mutate_value_keeps_type_witness :
  isinstance_bool (VStr "svc") = false /\
  exists v' w', mutate_value (VStr "svc") append_ab = (Ok v', w') /\
                type_name v' = type_name (VStr "svc").
Proof.
  split; [reflexivity|].
  apply (mutate_value_keeps_type (VStr "svc") append_ab). reflexivity.
Defined.

Lemma mutate_config_keeps_opaque_leaves_witness :
  unique_keys (w_heap loaded) /\
  opaque_kept (w_heap loaded)
    (w_heap (mutate_config 2 (VDict 0%nat) two loaded).2).
Proof.
  assert (Hu : unique_keys (w_heap loaded))
    by (apply (bool_decide_unpack _); vm_compute; exact I).
  split; [exact Hu|].
  apply (mutate_config_keeps_opaque_leaves 2 0%nat two loaded Hu).
Defined.

Lemma mutate_config_raises_only_recursion_error_witness :
  unique_keys (w_heap loaded) /\
  within_depth 1 (shape (w_heap loaded)) 0 = false /\
  ((mutate_config 1 (VDict 0%nat) two loaded).1 = Ok (VDict 0%nat) \/
   exists e, (mutate_config 1 (VDict 0%nat) two loaded).1 = Raise e /\
             exn_cls e = RecursionError) /\
  (within_depth 1 (shape (w_heap loaded)) 0 = false ->
   exists e, (mutate_config 1 (VDict 0%nat) two loaded).1 = Raise e /\
             exn_cls e = RecursionError).
Proof.
  assert (Hu : unique_keys (w_heap loaded))
    by (apply (bool_decide_unpack _); vm_compute; exact I).
  split; [exact Hu|]. split; [reflexivity|].
  apply (mutate_config_raises_only_recursion_error 1 0%nat two loaded Hu).
Defined.

Lemma mutate_config_rate_not_positive_witness :
  PyFloat.lt PyFloat.zero S754_nan = false /\
  unique_keys (w_heap loaded) /\
  within_depth 2 (shape (w_heap loaded)) 0 = true /\
  exists r, mutate_config 2 (VDict 0%nat) S754_nan loaded =
            (Ok (VDict 0%nat), set_rng r loaded).
Proof.
  assert (Hu : unique_keys (w_heap loaded))
    by (apply (bool_decide_unpack _); vm_compute; exact I).
  split; [reflexivity|]. split; [exact Hu|]. split; [reflexivity|].
  apply (mutate_config_rate_not_positive 2 0%nat S754_nan loaded);
    [reflexivity | exact Hu | reflexivity].
Defined.

Lemma main_without_lint_starts_no_linter_witness :
  lint (args_for "app.yaml") = false /\
  exists evs,
    w_trace (main env (args_for "app.yaml") start).2 = w_trace start ++ evs /\
    forallb not_lint_run evs = true.
Proof.
  split; [reflexivity|].
  apply (main_without_lint_starts_no_linter env (args_for "app.yaml") start).
  reflexivity.
Defined.

Lemma main_without_test_command_runs_no_shell_witness :
  truthy (test_command (args_for "app.yaml")) = false /\
  exists evs,
    w_trace (main env (args_for "app.yaml") start_sh).2 =
      w_trace start_sh ++ evs /\
    forallb not_test_run evs = true.
Proof.
  split; [reflexivity|].
  apply (main_without_test_command_runs_no_shell env (args_for "app.yaml") start_sh).
  reflexivity.
Defined.

Lemma run_test_command_second_placeholder_witness :
  brace_free "diff " = true /\ brace_free " " = true /\
  run_test_command env "out.yaml" ("diff " +:+ "{}" +:+ " " +:+ "{}" +:+ ".bak")
    start_sh =
  (Ok (-1),
   emit (Log ERROR ("Error executing test command: " +:+
                    "Replacement index 1 out of range for positional args tuple"))
        start_sh).
Proof.
  split; [reflexivity|]. split; [reflexivity|].
  apply (run_test_command_second_placeholder env "diff " " " ".bak" "out.yaml"
           start_sh); reflexivity.
Defined.

Lemma run_test_command_no_placeholder_witness :
  brace_free "make check" = true /\
  exists evs,
    w_trace (run_test_command env "out.yaml" "make check" start_sh).2 =
      w_trace start_sh ++
      Log INFO ("Executing test command: " +:+ "make check") ::
      Run (Shell "make check") :: evs /\
    forallb not_run evs = true.
Proof.
  split; [reflexivity|].
  apply (run_test_command_no_placeholder env "make check" "out.yaml" start_sh).
  reflexivity.
Defined.

Lemma main_rejects_non_mapping_document_witness :
  load_config env_null "app.yaml" start =
    (Ok VNone, (load_config env_null "app.yaml" start).2) /\
  isinstance_dict VNone = false /\
  exists e,
    main env_null (args_for "app.yaml") start =
      (Ok 1, emit (Log ERROR ("An unexpected error occurred: " +:+ exn_str e))
               (load_config env_null "app.yaml" start).2) /\
    w_fs (load_config env_null "app.yaml" start).2 = w_fs start /\
    exists evs,
      w_trace (load_config env_null "app.yaml" start).2 = w_trace start ++ evs /\
      forallb read_only evs = true.
Proof.
  assert (Hl : load_config env_null "app.yaml" start =
               (Ok VNone, (load_config env_null "app.yaml" start).2))
    by (vm_compute; reflexivity).
  split; [exact Hl|]. split; [reflexivity|].
  apply (main_rejects_non_mapping_document env_null (args_for "app.yaml") start
           VNone (load_config env_null "app.yaml" start).2); [exact Hl | reflexivity].
Defined.

Lemma main_rejects_unsupported_input_type_witness :
  main env (args_for "app.toml") (with_file "app.toml") =
  (Ok 1,
   emit (Log ERROR ("Value error: " +:+
                    "Unsupported configuration file type.  Must be YAML or JSON."))
        (emit (OpenRead "app.toml") (with_file "app.toml"))).
Proof.
  apply (main_rejects_unsupported_input_type env (args_for "app.toml")
           (with_file "app.toml") "name: svc"); reflexivity.
Defined.

Lemma main_reports_json_parse_error_witness :
  main env_broken (args_for "app.json") (with_file "app.json") =
  (Ok 1,
   emit (Log ERROR ("Value error: " +:+
                    "Expecting value: line 1 column 1 (char 0)"))
     (emit (Log ERROR ("Error parsing JSON file: " +:+
                       "Expecting value: line 1 column 1 (char 0)"))
        (emit (OpenRead "app.json") (with_file "app.json")))).
Proof.
  apply (main_reports_json_parse_error env_broken (args_for "app.json")
           (with_file "app.json") "name: svc"
           (Exn JSONDecodeError "Expecting value: line 1 column 1 (char 0)"));
    reflexivity.
Defined.

Lemma main_reports_yaml_parse_error_witness :
  main env_broken (args_for "app.yml") (with_file "app.yml") =
  (Ok 1,
   emit (Log ERROR ("An unexpected error occurred: " +:+
                    "mapping values are not allowed here"))
     (emit (Log ERROR ("Error parsing YAML file: " +:+
                       "mapping values are not allowed here"))
        (emit (OpenRead "app.yml") (with_file "app.yml")))).
Proof.
  apply (main_reports_yaml_parse_error env_broken (args_for "app.yml")
           (with_file "app.yml") "name: svc"
           (Exn YAMLError "mapping values are not allowed here"));
    reflexivity.
Defined.

Lemma save_config_bad_extension_truncates_witness :
  w_fs (save_config env (VDict 0%nat) "app.toml" (with_file "app.toml")).2
    !! "app.toml" = Some (File "") /\
  save_config env (VDict 0%nat) "app.toml" (with_file "app.toml") =
  (Raise (Exn ValueError
            "Unsupported configuration file type. Must be YAML or JSON."),
   emit (Log ERROR ("Error writing configuration to file: " +:+
                    "Unsupported configuration file type. Must be YAML or JSON."))
     (set_fs (<["app.toml" := File ""]> (w_fs (with_file "app.toml")))
        (emit (OpenWrite "app.toml") (with_file "app.toml")))).
Proof.
  split; [reflexivity|].
  apply (save_config_bad_extension_truncates env (VDict 0%nat) "app.toml"
           (with_file "app.toml")); [reflexivity | reflexivity | reflexivity | discriminate].
Defined.

Lemma prepare_writes_output_file_witness :
  prepare env (args_for "app.yaml") start =
    (Ok "app.yaml", (prepare env (args_for "app.yaml") start).2) /\
  "app.yaml" = (if truthy (output_file (args_for "app.yaml"))
                then default "" (output_file (args_for "app.yaml"))
                else config_file (args_for "app.yaml")) /\
  exists config wa mutated wb,
    load_config env (config_file (args_for "app.yaml")) start = (Ok config, wa) /\
    mutate_config (recursion_limit env) config
      (mutation_rate (args_for "app.yaml")) wa = (Ok mutated, wb) /\
    w_heap (prepare env (args_for "app.yaml") start).2 = w_heap wb /\
    w_fs (prepare env (args_for "app.yaml") start).2 =
      <["app.yaml" :=
          File ((if is_yaml "app.yaml" then yaml_dump env else json_dump env)
                  (w_heap wb) mutated).1]> (w_fs wb).
Proof.
  assert (Hp : prepare env (args_for "app.yaml") start =
               (Ok "app.yaml", (prepare env (args_for "app.yaml") start).2))
    by (vm_compute; reflexivity).
  split; [exact Hp|].
  apply (prepare_writes_output_file env (args_for "app.yaml") start "app.yaml"
           (prepare env (args_for "app.yaml") start).2 Hp).
Defined.

Lemma main_success_means_all_passed_witness :
  (main env_passing args start_sh).1 = Ok 0 /\
  exists out w1,
    prepare env_passing args start_sh = (Ok out, w1) /\
    (lint args = true -> ~ lint_fails env_passing out (w_fs w1)) /\
    (truthy (test_command args) = true ->
     (run_test_command env_passing out (default "" (test_command args))
        (if lint args then (lint_config env_passing out w1).2 else w1)).1 = Ok 0).
Proof.
  split; [reflexivity|].
  apply (main_success_means_all_passed env_passing args start_sh). reflexivity.
Defined.

End Samples2.
